(** * PySide docset generator: a model of [main.py] and its properties

    The generator crawls the Qt for Python documentation, rewrites every
    page for offline use and fills the [searchIndex] table of a Dash
    docset.  This file embeds the functions of [main.py] as Rocq
    functions and proves (or refutes) the statements of the
    specification about them.

    Conventions.
    - Python [str] is [string]; the string methods used by the script
      ([split], [startswith], [endswith], [in], [replace]) are written
      out below.
    - A BeautifulSoup tree is a rose tree of [Text] and [Elem] nodes;
      attributes are an association list in source order.
    - A tag obtained by [find] is a reference into the tree: it is
      modelled by its path (child indexes from the root).
    - The file system, the sqlite table and the console form the
      [world]; functions with effects live in a state and exception
      monad in which the effects made before an exception remain.
    - The network, the HTML parser and serialiser, the regex compiler
      and the working directory are parameters of the model: a run is
      made against a site that answers each URL in one way. *)

From Stdlib Require Import Ascii String List Bool Arith Lia DecimalString.
From stdpp Require Import base option list strings gmap.

Local Open Scope string_scope.
Local Open Scope list_scope.
Local Open Scope stdpp_scope.

(** ** Python strings *)

Module Py.

Definition nl : ascii := "010"%char.
Definition dquote : string := String "034"%char "".
Definition esc : string := String "027"%char "".

(** [s.split(sep)] for a one-character separator. *)
Fixpoint split_on (sep : ascii) (s : string) : list string :=
  match s with
  | EmptyString => [EmptyString]
  | String c r =>
      if Ascii.eqb c sep then EmptyString :: split_on sep r
      else match split_on sep r with
           | h :: t => String c h :: t
           | [] => [String c EmptyString]
           end
  end.

(** [s.split("/")[-1]] *)
Definition last_segment (s : string) : string :=
  default "" (last (split_on "/" s)).

(** [s.split("#")[0]] *)
Definition before_hash (s : string) : string :=
  default "" (head (split_on "#" s)).

(** [s.startswith(p)] *)
Definition startswith (p s : string) : bool := String.prefix p s.

(** [s.endswith(suf)] *)
Fixpoint endswith (suf s : string) : bool :=
  String.eqb s suf ||
  match s with
  | EmptyString => false
  | String _ r => endswith suf r
  end.

(** [sub in s] *)
Fixpoint contains (sub s : string) : bool :=
  String.prefix sub s ||
  match s with
  | EmptyString => false
  | String _ r => contains sub r
  end.

(** [c in s] for one character. *)
Fixpoint has_char (c : ascii) (s : string) : bool :=
  match s with
  | EmptyString => false
  | String d r => Ascii.eqb d c || has_char c r
  end.

(** [s.replace(old, new)] for a non-empty [old]: occurrences are
    replaced from left to right and do not overlap.  [skip] counts the
    characters of a matched occurrence still to be dropped. *)
Fixpoint replace_from (old new : string) (skip : nat) (s : string) : string :=
  match s with
  | EmptyString => EmptyString
  | String c r =>
      match skip with
      | S k => replace_from old new k r
      | O =>
          if String.prefix old s
          then new +:+ replace_from old new (String.length old - 1) r
          else String c (replace_from old new 0 r)
      end
  end.

Definition replace (old new s : string) : string := replace_from old new 0 s.

(** ["".join(l)] *)
Definition cat (l : list string) : string := foldr String.append "" l.

(** ["%d" % n] *)
Definition of_nat (n : nat) : string := NilZero.string_of_uint (Nat.to_uint n).

(** ["%s" % x] where [x] is a string or [None]. *)
Definition fmt (x : option string) : string := default "None" x.

End Py.

(** ** [os.path] (posixpath) *)

Module OsPath.

Definition isabs (p : string) : bool := String.prefix "/" p.

(** [p[:p.rfind('/')+1]] *)
Fixpoint upto_last_sep (p : string) : string :=
  match p with
  | EmptyString => EmptyString
  | String c r =>
      let h := upto_last_sep r in
      if String.eqb h "" && negb (Ascii.eqb c "/") then "" else String c h
  end.

(** [s.rstrip('/')] *)
Fixpoint rstrip_sep (s : string) : string :=
  match s with
  | EmptyString => EmptyString
  | String c r =>
      let r' := rstrip_sep r in
      if Ascii.eqb c "/" && String.eqb r' "" then "" else String c r'
  end.

Definition dirname (p : string) : string :=
  let head := upto_last_sep p in
  if negb (String.eqb head "") && negb (String.eqb (rstrip_sep head) "")
  then rstrip_sep head else head.

Definition basename (p : string) : string := Py.last_segment p.

(** [os.path.join(a, b)] *)
Definition join (a b : string) : string :=
  if String.prefix "/" b then b
  else if String.eqb a "" || Py.endswith "/" a then a +:+ b
  else a +:+ "/" +:+ b.

(** One round of the loop of [normpath] over the components. *)
Definition norm_step (initial_slashes : nat) (new_comps : list string)
    (comp : string) : list string :=
  if String.eqb comp "" || String.eqb comp "." then new_comps
  else if negb (String.eqb comp "..")
          || (Nat.eqb initial_slashes 0 && bool_decide (new_comps = []))
          || match last new_comps with
             | Some l => String.eqb l ".."
             | None => false
             end
       then new_comps ++ [comp]
       else removelast new_comps.

Definition initial_slashes (path : string) : nat :=
  if String.prefix "/" path
  then if String.prefix "//" path && negb (String.prefix "///" path)
       then 2 else 1
  else 0.

Definition normpath (path : string) : string :=
  if String.eqb path "" then "."
  else
    let n := initial_slashes path in
    let comps := fold_left (norm_step n) (Py.split_on "/" path) [] in
    let p := String.concat "" (repeat "/" n) +:+ String.concat "/" comps in
    if String.eqb p "" then "." else p.

(** [os.path.abspath(path)] when the working directory is [cwd]. *)
Definition abspath (cwd path : string) : string :=
  normpath (if isabs path then path else join cwd path).

End OsPath.

(** ** BeautifulSoup trees *)

Unset Elimination Schemes.
Inductive node : Type :=
| Text (s : string)
| Elem (name : string) (attrs : list (string * string)) (children : list node).
Set Elimination Schemes.

(** Induction over a tree gives the property for every child. *)
Section NodeInduction.
Variable P : node -> Prop.
Hypothesis HText : forall s, P (Text s).
Hypothesis HElem : forall t a ch, Forall P ch -> P (Elem t a ch).

Fixpoint node_ind (n : node) : P n :=
  match n with
  | Text s => HText s
  | Elem t a ch =>
      HElem t a ch
        ((fix all (l : list node) : Forall P l :=
            match l with
            | [] => List.Forall_nil P
            | c :: r => List.Forall_cons P c r (node_ind c) (all r)
            end) ch)
  end.
End NodeInduction.

Definition children (n : node) : list node :=
  match n with
  | Text _ => []
  | Elem _ _ ch => ch
  end.

Definition attrs_of (n : node) : list (string * string) :=
  match n with
  | Text _ => []
  | Elem _ a _ => a
  end.

(** [tag.attrs.get(k)] *)
Fixpoint get_attr (k : string) (a : list (string * string)) : option string :=
  match a with
  | [] => None
  | (k', v) :: r => if String.eqb k' k then Some v else get_attr k r
  end.

(** [tag[k] = v]: an existing key keeps its place. *)
Fixpoint set_attr (k v : string) (a : list (string * string)) : list (string * string) :=
  match a with
  | [] => [(k, v)]
  | (k', v') :: r =>
      if String.eqb k' k then (k, v) :: r else (k', v') :: set_attr k v r
  end.

Definition is_tag (t : string) (n : node) : bool :=
  match n with
  | Text _ => false
  | Elem name _ _ => String.eqb name t
  end.

(** [tag.get_text()] *)
Fixpoint get_text (n : node) : string :=
  match n with
  | Text s => s
  | Elem _ _ ch => Py.cat (map get_text ch)
  end.

(** Every node of a tree, the root first. *)
Fixpoint subnodes (n : node) : list node :=
  match n with
  | Text s => [Text s]
  | Elem t a ch => Elem t a ch :: flat_map subnodes ch
  end.

(** ** The link rewriter, [clean_links] *)

Section CleanLinks.

(** [os.getcwd()] at the time of the run. *)
Variable cwd : string.

(** [re.compile("^../").search(s)]: a dot matches every character but
    a newline. *)
Definition href_re (s : string) : bool :=
  match s with
  | String a (String b (String c _)) =>
      negb (Ascii.eqb a Py.nl) && negb (Ascii.eqb b Py.nl) && Ascii.eqb c "/"
  | _ => false
  end.

(** The argument of [os.path.abspath] at line 62. *)
Definition resolve (current_url href : string) : string :=
  OsPath.abspath cwd (OsPath.dirname current_url +:+ "/" +:+ href).

Definition inside_doc (current_url href : string) : bool :=
  Py.contains "PySide2" (resolve current_url href).

(** The [href] of a tag selected by
    [find_all(["a", "area"], href=re.compile("^../"))]. *)
Definition link_href (name : string) (a : list (string * string)) : option string :=
  if String.eqb name "a" || String.eqb name "area" then
    match get_attr "href" a with
    | Some h => if href_re h then Some h else None
    | None => None
    end
  else None.

(** The loop of [clean_links] visits the selected tags in document
    order; each one is either given a new [href] or replaced by its
    children, which stay in the tree and are visited in turn.  The
    result on a node is therefore the list of nodes that takes its
    place. *)
Fixpoint clean_node (current_url : string) (n : node) : list node :=
  match n with
  | Text s => [Text s]
  | Elem t a ch =>
      let ch' := flat_map (clean_node current_url) ch in
      match link_href t a with
      | Some h =>
          if inside_doc current_url h
          then [Elem t (set_attr "href" (Py.last_segment h) a) ch']
          else ch'
      | None => [Elem t a ch']
      end
  end.

Definition clean_forest (current_url : string) (l : list node) : list node :=
  flat_map (clean_node current_url) l.

Definition clean_links (body : node) (current_url : string) : node :=
  match body with
  | Text s => Text s
  | Elem t a ch => Elem t a (clean_forest current_url ch)
  end.

End CleanLinks.

(** ** Searching and editing a tree *)

(** A tag returned by a search is a reference into the tree: the path of
    child indexes that leads to it, with the node found there. *)
Definition path := list nat.

(** [tag.descendants]: every node below [n], in document order. *)
Fixpoint descendants_from (pre : path) (n : node) : list (path * node) :=
  match n with
  | Text _ => []
  | Elem _ _ ch =>
      (fix walk (i : nat) (l : list node) : list (path * node) :=
         match l with
         | [] => []
         | c :: r =>
             (pre ++ [i], c) :: descendants_from (pre ++ [i]) c ++ walk (S i) r
         end) 0 ch
  end.

Definition descendants (n : node) : list (path * node) := descendants_from [] n.

(** [tag.find_all(...)] and [tag.find(...)] for a search criterion [p]. *)
Definition find_all (p : node -> bool) (n : node) : list (path * node) :=
  List.filter (fun x => p x.2) (descendants n).

Definition find (p : node -> bool) (n : node) : option (path * node) :=
  head (find_all p n).

Fixpoint node_at (p : path) (n : node) : option node :=
  match p with
  | [] => Some n
  | i :: q =>
      match children n !! i with
      | Some c => node_at q c
      | None => None
      end
  end.

(** Replace the node at path [p] by the nodes [f n]: [extract] is
    [fun _ => []], [replaceWithChildren] is [children]. *)
Fixpoint splice_at (p : path) (f : node -> list node) (l : list node) : list node :=
  match p with
  | [] => l
  | i :: q =>
      match l !! i with
      | None => l
      | Some c =>
          match q with
          | [] => take i l ++ f c ++ drop (S i) l
          | _ :: _ =>
              match c with
              | Text _ => l
              | Elem t a ch => <[i := Elem t a (splice_at q f ch)]> l
              end
          end
      end
  end.

Definition splice_in (p : path) (f : node -> list node) (n : node) : node :=
  match n with
  | Text s => Text s
  | Elem t a ch => Elem t a (splice_at p f ch)
  end.

Definition extract (p : path) (n : node) : node := splice_in p (fun _ => []) n.
Definition replace_with_children (p : path) (n : node) : node := splice_in p children n.
Definition put (p : path) (new : node) (n : node) : node := splice_in p (fun _ => [new]) n.

(** [tag.string] *)
Fixpoint tag_string (n : node) : option string :=
  match n with
  | Text s => Some s
  | Elem _ _ [c] => tag_string c
  | Elem _ _ _ => None
  end.

(** The values of a [class] attribute: the runs of non-blank characters. *)
Definition is_space (c : ascii) : bool :=
  let k := nat_of_ascii c in
  (Nat.leb 9 k && Nat.leb k 13) || (Nat.leb 28 k && Nat.leb k 32).

Fixpoint tokens_from (cur : string) (s : string) : list string :=
  match s with
  | EmptyString => if String.eqb cur "" then [] else [cur]
  | String c r =>
      if is_space c
      then if String.eqb cur "" then tokens_from "" r else cur :: tokens_from "" r
      else tokens_from (cur +:+ String c "") r
  end.

Definition tokens (s : string) : list string := tokens_from "" s.

(** The criterion [class_=c]: one of the values is [c], or the values
    joined by a blank are [c]. *)
Definition has_class (c : string) (n : node) : bool :=
  match get_attr "class" (attrs_of n) with
  | Some v =>
      existsb (String.eqb c) (tokens v) || String.eqb (String.concat " " (tokens v)) c
  | None => false
  end.

(** The criterion [id=i]. *)
Definition has_id (i : string) (n : node) : bool :=
  match n with
  | Text _ => false
  | Elem _ a _ => match get_attr "id" a with Some v => String.eqb v i | None => false end
  end.

Definition tag_class (t c : string) (n : node) : bool := is_tag t n && has_class c n.

(** ** Exceptions and results *)

Inductive exn : Type :=
| HTTPError | URLError | AttributeError | KeyError | IndexError
| FileNotFoundError | OperationalError | ReError.

Inductive result (A : Type) : Type :=
| Ok (a : A)
| Raise (e : exn).
Arguments Ok {A} a.
Arguments Raise {A} e.

(** Using the result of a search that may be [None]. *)
Definition deref {A} (o : option A) : result A :=
  match o with
  | Some a => Ok a
  | None => Raise AttributeError
  end.

(** [tag[k]] *)
Definition getitem (k : string) (n : node) : result string :=
  match get_attr k (attrs_of n) with
  | Some v => Ok v
  | None => Raise KeyError
  end.

Definition setitem (k v : string) (n : node) : node :=
  match n with
  | Text s => Text s
  | Elem t a ch => Elem t (set_attr k v a) ch
  end.

(** ** The index store *)

Record row : Type := Row { row_id : nat; row_name : string; row_type : string; row_path : string }.

Definition same_entry (name ty pth : string) (r : row) : bool :=
  String.eqb (row_name r) name && String.eqb (row_type r) ty && String.eqb (row_path r) pth.

(** The id given to a new row: one more than the largest id. *)
Definition next_id (t : list row) : nat := S (foldr (fun r m => Nat.max (row_id r) m) 0 t).

(** [INSERT OR IGNORE] under the unique index on (name, type, path). *)
Definition insert_row (name ty pth : string) (t : list row) : list row :=
  if existsb (same_entry name ty pth) t then t
  else t ++ [Row (next_id t) name ty pth].

(** ** The world and the monad of the script *)

Inductive event : Type :=
| Printed (s : string)
| Wrote (file content : string).

(** [fs] holds the files of the documents directory by name, [db] the
    rows of [searchIndex] in the order of insertion ([None] while the
    table does not exist), [log] what was printed and written, in
    order.  Opening a file of the directory for writing always
    succeeds; reading a file that does not exist raises. *)
Record world : Type := World {
  fs : gmap string string;
  db : option (list row);
  log : list event
}.

Definition M (A : Type) : Type := world -> result A * world.

Definition ret {A} (a : A) : M A := fun w => (Ok a, w).
Definition raise {A} (e : exn) : M A := fun w => (Raise e, w).
Definition lift {A} (r : result A) : M A := fun w => (r, w).
Definition bind {A B} (m : M A) (k : A -> M B) : M B :=
  fun w => match m w with
           | (Ok a, w') => k a w'
           | (Raise e, w') => (Raise e, w')
           end.

Declare Scope py_scope.
Delimit Scope py_scope with py.
Notation "x <- m ;; k" := (bind m (fun x => k))
  (at level 100, m at next level, right associativity) : py_scope.
Notation "m ;; k" := (bind m (fun _ => k))
  (at level 100, right associativity) : py_scope.
Local Open Scope py_scope.

(** [for x in l: body x] *)
Fixpoint for_each {A} (l : list A) (body : A -> M unit) : M unit :=
  match l with
  | [] => ret tt
  | x :: r => body x ;; for_each r body
  end.

(** A loop that collects one value per round. *)
Fixpoint map_m {A B} (f : A -> M B) (l : list A) : M (list B) :=
  match l with
  | [] => ret []
  | x :: r => y <- f x ;; ys <- map_m f r ;; ret (y :: ys)
  end.

(** A loop that updates a local variable. *)
Fixpoint fold_m {A S} (f : S -> A -> M S) (s : S) (l : list A) : M S :=
  match l with
  | [] => ret s
  | x :: r => s' <- f s x ;; fold_m f s' r
  end.

Definition print (s : string) : M unit :=
  fun w => (Ok tt, World (fs w) (db w) (log w ++ [Printed s])).

Definition path_exists (file : string) : M bool :=
  fun w => (Ok (bool_decide (is_Some (fs w !! file))), w).

Definition write_file (file content : string) : M unit :=
  fun w => (Ok tt, World (<[file := content]> (fs w)) (db w) (log w ++ [Wrote file content])).

Definition read_file (file : string) : M string :=
  fun w => match fs w !! file with
           | Some c => (Ok c, w)
           | None => (Raise FileNotFoundError, w)
           end.

(** [DROP TABLE IF EXISTS searchIndex] *)
Definition drop_table : M unit :=
  fun w => (Ok tt, World (fs w) None (log w)).

(** [CREATE TABLE searchIndex] with its unique index, which
    [insert_row] enforces. *)
Definition create_table : M unit :=
  fun w => match db w with
           | None => (Ok tt, World (fs w) (Some []) (log w))
           | Some _ => (Raise OperationalError, w)
           end.

Definition init_database : M unit :=
  drop_table ;; create_table.

Definition insert_entry (name entry_type pth : string) : M unit :=
  fun w => match db w with
           | Some t => (Ok tt, World (fs w) (Some (insert_row name entry_type pth t)) (log w))
           | None => (Raise OperationalError, w)
           end.

(** ** The script *)

(** The page template; [%s] are the title and the body. *)
Definition lines (l : list string) : string := String.concat (String Py.nl "") l.

Definition HTML_TEMPLATE (title html : string) : string :=
  lines [ "";
          "    <!DOCTYPE html>";
          "    <html lang=" +:+ Py.dquote +:+ "en" +:+ Py.dquote +:+ ">";
          "        <head>";
          "            <title>" +:+ title +:+ "</title>";
          "            <meta charset=" +:+ Py.dquote +:+ "UTF-8" +:+ Py.dquote +:+ ">";
          "            <meta name=" +:+ Py.dquote +:+ "viewport" +:+ Py.dquote
            +:+ " content=" +:+ Py.dquote +:+ "width=device-width, initial-scale=1" +:+ Py.dquote +:+ ">";
          "            <link href=" +:+ Py.dquote +:+ "main.css" +:+ Py.dquote
            +:+ " rel=" +:+ Py.dquote +:+ "stylesheet" +:+ Py.dquote +:+ ">";
          "        </head>";
          "        <body>";
          "            " +:+ html;
          "        </body>";
          "    </html>";
          "" ].

Definition red (s : string) : string := Py.esc +:+ "[0;31m" +:+ s +:+ Py.esc +:+ "[0m".
Definition eol : string := String Py.nl "".
Definition cr : string := String "013"%char "".

Definition exists_warning (file_name : string) : string :=
  red (file_name +:+ " - " +:+ "This page already exists...") +:+ eol.

Definition SITE : string := "https://doc-snapshots.qt.io/qtforpython/".

Definition module_index_url (module : string) : string :=
  SITE +:+ "PySide2/" +:+ module +:+ "/index.html".

Definition class_page_url (module class_name : string) : string :=
  SITE +:+ "PySide2/" +:+ module +:+ "/" +:+ class_name +:+ ".html".

(** The [re.sub] of [download_css]: a match of the pattern is a whole
    line that holds [font-family:], with the newline that ends it. *)
Definition remove_font_family (css : string) : string :=
  let ls := Py.split_on Py.nl css in
  String.concat ""
    (map (fun l => l +:+ eol)
       (List.filter (fun l => negb (Py.contains "font-family:" l)) (removelast ls)))
  +:+ default "" (last ls).

Definition FONT_RULE : string :=
  lines [ "";
          "        body {";
          "            font-family: -apple-system, BlinkMacSystemFont, 'Segoe UI', Roboto, Oxygen, Ubuntu, Cantarell, 'Open Sans', 'Helvetica Neue', sans-serif;";
          "        }";
          "    " ].

(** The type of a class entry, lines 237 to 244. *)
Definition database_type (class_name : string) : string :=
  if Py.endswith "Event" class_name then "Event"
  else if Py.endswith "Interface" class_name then "Interface"
  else if Py.endswith "Enum" class_name then "Enum"
  else "Class".

(** Lines 203 to 209: the links that follow the first
    [<strong>Inherited by:</strong>] among its siblings lose their
    fragment identifier. *)
Definition is_inherited_strong (n : node) : bool :=
  is_tag "strong" n && bool_decide (tag_string n = Some "Inherited by:").

Definition strip_link (n : node) : result node :=
  if is_tag "a" n then
    match getitem "href" n with
    | Ok h => Ok (setitem "href" (Py.before_hash h) n)
    | Raise e => Raise e
    end
  else Ok n.

Fixpoint strip_links (l : list node) : result (list node) :=
  match l with
  | [] => Ok []
  | n :: r =>
      match strip_link n with
      | Raise e => Raise e
      | Ok n' =>
          match strip_links r with
          | Raise e => Raise e
          | Ok r' => Ok (n' :: r')
          end
      end
  end.

(** The siblings of the node at path [p] are the children of the node
    at [removelast p]. *)
Definition strip_inherited_anchors (body : node) : result node :=
  match find is_inherited_strong body with
  | None => Ok body
  | Some (p, _) =>
      let pp := removelast p in
      let i := default 0 (last p) in
      match node_at pp body with
      | Some (Elem t a ch) =>
          match strip_links (drop (S i) ch) with
          | Raise e => Raise e
          | Ok links =>
              let parent := Elem t a (take (S i) ch ++ links) in
              Ok (match pp with
                  | [] => parent
                  | _ :: _ => put pp parent body
                  end)
          end
      | _ => Ok body
      end
  end.

(** The outcome of the image loop for one image: its tag and the local
    file name when the download succeeded. *)
Definition apply_image (o : path * option string) (body : node) : node :=
  match o.2 with
  | Some file_name => splice_in o.1 (fun n => [setitem "src" file_name n]) body
  | None => extract o.1 body
  end.

Section Crawler.

(** The working directory of the run. *)
Variable cwd : string.
(** [urllib.request.urlopen(url).read()]: the content, or the
    exception raised. *)
Variable net : string -> result string.
(** [BeautifulSoup(html, "html.parser")] and [str(tag)]. *)
Variable soup : string -> node.
Variable to_str : node -> string.
(** [re.compile(p)], as the search predicate of the compiled pattern;
    [None] when [p] is not a regular expression. *)
Variable re_compile : string -> option (string -> bool).

Definition do_request (url : string) : result (option node) :=
  match net url with
  | Ok html => Ok (Some (soup html))
  | Raise HTTPError => Ok None
  | Raise e => Raise e
  end.

Definition save_page (file_name title html : string) (show_exists_error : bool) : M unit :=
  warn <- (if show_exists_error then path_exists file_name else ret false) ;;
  (if warn then print (exists_warning file_name) else ret tt) ;;
  write_file file_name (HTML_TEMPLATE title html).

Definition download_file (url file_name : string) : M bool :=
  match net url with
  | Ok content => write_file file_name content ;; ret true
  | Raise HTTPError => ret false
  | Raise e => raise e
  end.

Definition download_css : M unit :=
  download_file "https://doc-snapshots.qt.io/style/pyside.css" "main.css" ;;
  css_content <- read_file "main.css" ;;
  write_file "main.css" (remove_font_family css_content +:+ FONT_RULE).

(** [str(document.title.string)] *)
Definition title_of (document : node) : result string :=
  match find (is_tag "title") document with
  | Some (_, t) => Ok (Py.fmt (tag_string t))
  | None => Raise AttributeError
  end.

(** [tag.findChildren(t)[0]] *)
Definition first_child_tag (t : string) (n : node) : result (path * node) :=
  match find_all (is_tag t) n with
  | x :: _ => Ok x
  | [] => Raise IndexError
  end.

Definition parse_main_page : M (list node) :=
  document <- lift (do_request SITE) ;;
  document <- lift (deref document) ;;
  b <- lift (deref (find (tag_class "div" "bodywrapper") document)) ;;
  q <- lift (deref (find (has_id "qt-modules") b.2)) ;;
  p <- lift (first_child_tag "p" q.2) ;;
  let qt_modules := extract p.1 q.2 in
  d <- lift (first_child_tag "div" qt_modules) ;;
  let qt_modules := extract d.1 qt_modules in
  let body := put q.1 qt_modules b.2 in
  let html_body := Py.replace ("href=" +:+ Py.dquote +:+ "PySide2/") ("href=" +:+ Py.dquote) (to_str body) in
  let html_body := Py.replace "/index.html" "-index.html" html_body in
  title <- lift (title_of (put b.1 body document)) ;;
  save_page "index.html" title html_body true ;;
  ret (map snd (find_all (tag_class "a" "external") body)).

(** The result is [None] where the script returns [False]. *)
Definition parse_module_index_page (module : string) : M (option node) :=
  print ("Indexing " +:+ module +:+ eol) ;;
  let url := module_index_url module in
  document <- lift (do_request url) ;;
  match document with
  | None => ret None
  | Some document =>
      b <- lift (deref (find (tag_class "div" "bodywrapper") document)) ;;
      h <- lift (deref (find (tag_class "div" "hide docutils container") b.2)) ;;
      let body := extract h.1 b.2 in
      let body := clean_links cwd body url in
      let file_path := module +:+ "-index.html" in
      title <- lift (title_of (put b.1 body document)) ;;
      save_page file_path title (to_str body) true ;;
      insert_entry module "Module" file_path ;;
      ret (Some body)
  end.

Definition download_image (image : path * node) : M (path * option string) :=
  src <- lift (getitem "src" image.2) ;;
  let img_src := Py.replace "../../" "" src in
  let image_file_name := OsPath.basename img_src in
  success <- download_file (SITE +:+ img_src) image_file_name ;;
  ret (image.1, if success then Some image_file_name else None).

Definition index_method (module class_name file_path : string) (method : path * node) : M unit :=
  let entry_name :=
    "PySide2." +:+ module +:+ "." +:+ class_name +:+ "." +:+ Py.fmt (tag_string method.2) in
  href <- lift (getitem "href" method.2) ;;
  insert_entry entry_name "Method" (file_path +:+ href).

(** [class_name] is the [string] of a link and can be [None]. *)
Definition parse_class_page (module : string) (class_name : option string) : M unit :=
  let name := Py.fmt class_name in
  let url := class_page_url module name in
  document <- lift (do_request url) ;;
  document <- lift (deref document) ;;
  b <- lift (deref (find (tag_class "div" "bodywrapper") document)) ;;
  body <- lift (strip_inherited_anchors b.2) ;;
  let body := clean_links cwd body url in
  outcomes <- map_m download_image (find_all (is_tag "img") body) ;;
  let body := foldr apply_image body outcomes in
  let file_path := name +:+ ".html" in
  title <- lift (title_of (put b.1 body document)) ;;
  save_page file_path title (to_str body) true ;;
  class_name <- lift (deref class_name) ;;
  let entry_name := "PySide2." +:+ module +:+ "." +:+ class_name in
  insert_entry entry_name (database_type class_name) file_path ;;
  match find (has_id "synopsis") body with
  | None => ret tt
  | Some (_, synopsis) =>
      for_each (find_all (tag_class "a" "reference internal") synopsis)
        (index_method module class_name file_path)
  end.

Definition progress (nb current : nat) : string :=
  "  -- " +:+ Py.of_nat nb +:+ " functions founds. Indexing "
  +:+ Py.of_nat current +:+ " / " +:+ Py.of_nat nb +:+ cr.

(** [enumerate(l, 1)] *)
Definition enumerate1 {A} (l : list A) : list (nat * A) := zip (seq 1 (length l)) l.

(** One round of the loop over the modules; [modules_in_404] is the
    list kept by [main]. *)
Definition crawl_module (modules_in_404 : list string) (module : node) : M (list string) :=
  s <- lift (deref (tag_string module)) ;;
  let module_slug := Py.replace " " "" s in
  module_index_body <- parse_module_index_page module_slug ;;
  match module_index_body with
  | None =>
      print (red "  -- Page not found. Skip..." +:+ eol) ;;
      ret (modules_in_404 ++ [module_slug])
  | Some body =>
      toc <- lift (deref (find (tag_class "div" "pysidetoc docutils container") body)) ;;
      let functions := find_all (tag_class "a" "internal") toc.2 in
      for_each (enumerate1 functions)
        (fun f => print (progress (length functions) f.1) ;;
                  parse_class_page module_slug (tag_string f.2.2)) ;;
      print eol ;;
      ret modules_in_404
  end.

(** Lines 302 and 303: for each module not found, the first link of
    the page whose [href] matches the module name as a pattern is
    replaced by its children. *)
Definition href_matches (rx : string -> bool) (n : node) : bool :=
  is_tag "a" n &&
  match get_attr "href" (attrs_of n) with
  | Some h => rx h
  | None => false
  end.

Definition remove_link (main_page_body : node) (module_in_404 : string) : result node :=
  match re_compile module_in_404 with
  | None => Raise ReError
  | Some rx =>
      match find (href_matches rx) main_page_body with
      | Some (p, _) => Ok (replace_with_children p main_page_body)
      | None => Raise AttributeError
      end
  end.

Fixpoint remove_links (main_page_body : node) (modules_in_404 : list string) : result node :=
  match modules_in_404 with
  | [] => Ok main_page_body
  | m :: r =>
      match remove_link main_page_body m with
      | Ok b => remove_links b r
      | Raise e => Raise e
      end
  end.

Definition BANNER : list string :=
  [ eol;
    Py.esc +:+ "[0;32m------------------------------------" +:+ eol;
    "| Developed By Yohan T.            |" +:+ eol;
    "| Find Me On Github:               |" +:+ eol;
    "| https://github.com/Cronos87      |" +:+ eol;
    "------------------------------------" +:+ Py.esc +:+ "[0m" +:+ eol ].

(** The documents directory is created when it is missing; its files
    are the [fs] of the world. *)
Definition main : M unit :=
  init_database ;;
  download_css ;;
  download_file "https://doc-snapshots.qt.io/style/list_arrow.png" "list_arrow.png" ;;
  modules <- parse_main_page ;;
  modules_in_404 <- fold_m crawl_module [] modules ;;
  content <- read_file "index.html" ;;
  let main_page_body := soup content in
  main_page_body <- lift (remove_links main_page_body modules_in_404) ;;
  title <- lift (title_of main_page_body) ;;
  save_page "index.html" title (to_str main_page_body) false ;;
  for_each BANNER print.

End Crawler.

(** ** Sample pages and library instances used by the examples *)

Module Sample.

(** [re.compile(p)] for a pattern [p] of letters and digits: the
    search succeeds on the strings that contain [p]. *)
Definition re_literal (p : string) : option (string -> bool) := Some (Py.contains p).

(** A serialiser in the manner of [str(tag)]. *)
Fixpoint show (n : node) : string :=
  match n with
  | Text s => s
  | Elem t a ch =>
      "<" +:+ t
      +:+ Py.cat (map (fun kv => " " +:+ kv.1 +:+ "=" +:+ Py.dquote +:+ kv.2 +:+ Py.dquote) a)
      +:+ ">" +:+ Py.cat (map show ch) +:+ "</" +:+ t +:+ ">"
  end.

Definition document (l : list node) : node := Elem "[document]" [] l.

Definition cwd : string := "/home/user/docset".

(** The root page as saved by [parse_main_page] and read again by
    [main]: the link of QtQuickWidgets comes before that of QtQuick. *)
Definition saved_root : node :=
  document
    [ Elem "html" []
        [ Elem "head" [] [ Elem "title" [] [ Text "Qt for Python" ] ];
          Elem "body" []
            [ Elem "div" [("class", "bodywrapper")]
                [ Elem "a" [("class", "reference external"); ("href", "QtQuickWidgets-index.html")]
                    [ Text "QtQuickWidgets" ];
                  Text ", ";
                  Elem "a" [("class", "reference external"); ("href", "QtQuick-index.html")]
                    [ Text "QtQuick" ] ] ] ] ].

(** A class page with an inheritance paragraph, an image and a
    synopsis. *)
Definition class_body : node :=
  Elem "div" [("class", "bodywrapper")]
    [ Elem "p" []
        [ Elem "strong" [] [ Text "Inherited by:" ];
          Text " ";
          Elem "a" [("class", "reference internal"); ("href", "../QtWidgets/QWidget.html#more")]
            [ Text "QWidget" ] ];
      Elem "img" [("src", "../../_images/a.png")] [];
      Elem "div" [("id", "synopsis")]
        [ Elem "a" [("class", "reference internal"); ("href", "#PySide2.QtCore.QObject.parent")]
            [ Text "parent" ] ] ].

(** The same page after lines 203 to 209. *)
Definition stripped_class_body : node :=
  Elem "div" [("class", "bodywrapper")]
    [ Elem "p" []
        [ Elem "strong" [] [ Text "Inherited by:" ];
          Text " ";
          Elem "a" [("class", "reference internal"); ("href", "../QtWidgets/QWidget.html")]
            [ Text "QWidget" ] ];
      Elem "img" [("src", "../../_images/a.png")] [];
      Elem "div" [("id", "synopsis")]
        [ Elem "a" [("class", "reference internal"); ("href", "#PySide2.QtCore.QObject.parent")]
            [ Text "parent" ] ] ].

Definition class_page : node :=
  document [ Elem "title" [] [ Text "QObject" ]; class_body ].

(** A site on which every page is the class page above. *)
Definition net (url : string) : result string := Ok "<html>".
Definition soup (html : string) : node := class_page.

(** The index page of a module. *)
Definition index_body : node :=
  Elem "div" [("class", "bodywrapper")]
    [ Elem "div" [("class", "hide docutils container")] [ Text "toc" ];
      Elem "p" [] [ Elem "a" [("href", "../../index.html")] [ Text "Qt for Python" ] ];
      Elem "div" [("class", "pysidetoc docutils container")]
        [ Elem "a" [("class", "reference internal"); ("href", "QObject.html")]
            [ Text "QObject" ] ] ].

Definition index_soup (html : string) : node :=
  document [ Elem "title" [] [ Text "QtCore" ]; index_body ].

(** A root page that lists no module. *)
Definition bare_root : node :=
  document
    [ Elem "title" [] [ Text "Qt for Python" ];
      Elem "div" [("class", "bodywrapper")]
        [ Elem "div" [("id", "qt-modules")]
            [ Elem "p" [] [ Text "Modules" ];
              Elem "div" [] [ Text "overview" ];
              Text "none yet" ] ] ].

Definition bare_soup (html : string) : node := bare_root.

(** A site that cannot be reached. *)
Definition net_down (url : string) : result string := Raise URLError.

(** A site on which every page is missing. *)
Definition net_404 (url : string) : result string := Raise HTTPError.

Definition empty_world : world := World ∅ None [].

(** What [main] saves for [saved_root] when QtQuick is the only
    module not found. *)
Definition pruned_root : node :=
  document
    [ Elem "html" []
        [ Elem "head" [] [ Elem "title" [] [ Text "Qt for Python" ] ];
          Elem "body" []
            [ Elem "div" [("class", "bodywrapper")]
                [ Text "QtQuickWidgets";
                  Text ", ";
                  Elem "a" [("class", "reference external"); ("href", "QtQuick-index.html")]
                    [ Text "QtQuick" ] ] ] ] ].

End Sample.

(** ** Notions used in the statements *)

(** The number of rows of a table that hold a given entry. *)
Definition count_rows (name ty pth : string) (t : list row) : nat :=
  length (List.filter (same_entry name ty pth) t).

(** The unique index: no entry is held by two rows. *)
Definition unique_rows (t : list row) : Prop :=
  forall name ty pth, count_rows name ty pth t <= 1.

(** The table after a sequence of insertions into a fresh table. *)
Definition insert_all (es : list (string * string * string)) : M unit :=
  for_each es (fun e => insert_entry e.1.1 e.1.2 e.2).

(** A node selected by the search of [clean_links]. *)
Definition selected (n : node) : bool :=
  match n with
  | Text _ => false
  | Elem t a _ => bool_decide (is_Some (link_href t a))
  end.

(** The descendants of the children [l] of a node at path [pre], the
    first of which has index [i]. *)
Fixpoint walk_from (pre : path) (i : nat) (l : list node) : list (path * node) :=
  match l with
  | [] => []
  | c :: r => (pre ++ [i], c) :: descendants_from (pre ++ [i]) c ++ walk_from pre (S i) r
  end.

(** A property of the world that a computation keeps. *)
Definition preserves {A} (I : world -> Prop) (m : M A) : Prop :=
  forall w, I w -> I (m w).2.

(** Two worlds agree when they hold the same table and the same content
    for the files in [K]. *)
Definition agree (K : string -> Prop) (w1 w2 : world) : Prop :=
  db w1 = db w2 /\ forall f, K f -> fs w1 !! f = fs w2 !! f.

(** A computation that, run in two worlds that agree on [K], gives the
    same result and the same table, and when it returns leaves the same
    content in the files of [K']. *)
Definition det {A} (K K' : string -> Prop) (m : M A) : Prop :=
  forall w1 w2, agree K w1 w2 ->
    (m w1).1 = (m w2).1 /\
    db (m w1).2 = db (m w2).2 /\
    forall a, (m w1).1 = Ok a -> forall f, K' f -> fs (m w1).2 !! f = fs (m w2).2 !! f.

Definition no_file : string -> Prop := fun _ => False.
Definition with_file (K : string -> Prop) (file : string) : string -> Prop :=
  fun f => K f \/ f = file.

Definition CSS_URL : string := "https://doc-snapshots.qt.io/style/pyside.css".

(** What [main] does after [download_css]. *)
Definition crawl (cwd : string) (net : string -> result string) (soup : string -> node)
    (to_str : node -> string) (re_compile : string -> option (string -> bool)) : M unit :=
  (download_file net "https://doc-snapshots.qt.io/style/list_arrow.png" "list_arrow.png" ;;
   modules <- parse_main_page net soup to_str ;;
   modules_in_404 <- fold_m (crawl_module cwd net soup to_str) [] modules ;;
   content <- read_file "index.html" ;;
   let main_page_body := soup content in
   main_page_body <- lift (remove_links re_compile main_page_body modules_in_404) ;;
   title <- lift (title_of main_page_body) ;;
   save_page "index.html" title (to_str main_page_body) false ;;
   for_each BANNER print)%py.

(** The table holds a row for the entry. *)
Definition holds_entry (name ty pth : string) (w : world) : Prop :=
  exists t id, db w = Some t /\ Row id name ty pth ∈ t.

(** The table exists. *)
Definition has_table (w : world) : Prop := is_Some (db w).

(** A file of the documents directory exists. *)
Definition has_file (file : string) (w : world) : Prop := is_Some (fs w !! file).

Fixpoint last_char (s : string) : option ascii :=
  match s with
  | EmptyString => None
  | String c r =>
      match last_char r with
      | None => Some c
      | Some d => Some d
      end
  end.

(** ** Further notions *)

(** The number of tags named [t] in a forest. *)
Definition count_tag (t : string) (l : list node) : nat :=
  length (List.filter (is_tag t) (flat_map subnodes l)).

(** The ids of a table are 1, 2, ... in the order of insertion. *)
Definition ids_in_order (t : list row) : Prop :=
  map row_id t = seq 1 (length t).

(** The table exists and satisfies the constraints of its schema. *)
Definition table_ok (w : world) : Prop :=
  exists t, db w = Some t /\ unique_rows t /\ ids_in_order t.

(** The name of a module, from its link on the root page (line 277). *)
Definition module_slug (module : node) : option string :=
  match tag_string module with
  | Some s => Some (Py.replace " " "" s)
  | None => None
  end.

(** The modules of a list whose index page is answered by an HTTP
    error. *)
Definition not_found_modules (net : string -> result string) (modules : list node) : list string :=
  flat_map (fun module =>
              match module_slug module with
              | Some slug =>
                  match net (module_index_url slug) with
                  | Raise HTTPError => [slug]
                  | _ => []
                  end
              | None => []
              end) modules.

(** A style sheet given by its lines. *)
Definition css_of_lines (ls : list string) (last_line : string) : string :=
  Py.cat (map (fun l => l +:+ eol) ls) +:+ last_line.

(** * Properties *)

(** ** Results of monadic code *)

Lemma bind_ok {A B} (m : M A) (k : A -> M B) w b w' :
  bind m k w = (Ok b, w') ->
  exists a w1, m w = (Ok a, w1) /\ k a w1 = (Ok b, w').
Proof.
  unfold bind. destruct (m w) as [[a|e] w1] eqn:E; intros H.
  - exists a, w1. split; [reflexivity | exact H].
  - discriminate H.
Qed.

Lemma lift_ok {A} (r : result A) w a w' :
  lift r w = (Ok a, w') -> r = Ok a /\ w' = w.
Proof. unfold lift. intros H. inversion H. split; reflexivity. Qed.

(** ** The index store *)

Lemma count_rows_app name ty pth t1 t2 :
  count_rows name ty pth (t1 ++ t2) = count_rows name ty pth t1 + count_rows name ty pth t2.
Proof. unfold count_rows. rewrite List.filter_app, length_app. reflexivity. Qed.

Lemma count_rows_zero name ty pth t :
  existsb (same_entry name ty pth) t = false -> count_rows name ty pth t = 0.
Proof.
  unfold count_rows. induction t as [|r t IH]; simpl; [reflexivity|].
  destruct (same_entry name ty pth r); simpl; [discriminate | exact IH].
Qed.

Lemma count_rows_pos name ty pth t :
  existsb (same_entry name ty pth) t = true -> 1 <= count_rows name ty pth t.
Proof.
  unfold count_rows. induction t as [|r t IH]; simpl; [discriminate|].
  destruct (same_entry name ty pth r); simpl; [lia | exact IH].
Qed.

Lemma same_entry_refl i name ty pth : same_entry name ty pth (Row i name ty pth) = true.
Proof. unfold same_entry. simpl. rewrite !String.eqb_refl. reflexivity. Qed.

Lemma same_entry_eq n1 t1 p1 r :
  same_entry n1 t1 p1 r = true -> row_name r = n1 /\ row_type r = t1 /\ row_path r = p1.
Proof.
  unfold same_entry. intros H.
  apply andb_prop in H as [H H3]. apply andb_prop in H as [H1 H2].
  apply String.eqb_eq in H1, H2, H3. auto.
Qed.

Lemma insert_row_unique name ty pth t :
  unique_rows t -> unique_rows (insert_row name ty pth t).
Proof.
  intros U n' ty' p'. unfold insert_row.
  destruct (existsb (same_entry name ty pth) t) eqn:E; [apply U|].
  rewrite count_rows_app. unfold count_rows at 2. simpl.
  destruct (same_entry n' ty' p' (Row (next_id t) name ty pth)) eqn:S; simpl.
  - apply same_entry_eq in S as (<- & <- & <-). simpl.
    rewrite (count_rows_zero _ _ _ _ E). lia.
  - specialize (U n' ty' p'). lia.
Qed.

Lemma insert_row_count name ty pth t :
  unique_rows t -> count_rows name ty pth (insert_row name ty pth t) = 1.
Proof.
  intros U. unfold insert_row.
  destruct (existsb (same_entry name ty pth) t) eqn:E.
  - apply count_rows_pos in E. specialize (U name ty pth). lia.
  - rewrite count_rows_app, (count_rows_zero _ _ _ _ E).
    unfold count_rows. simpl. rewrite same_entry_refl. reflexivity.
Qed.

Lemma insert_row_again name ty pth t :
  insert_row name ty pth (insert_row name ty pth t) = insert_row name ty pth t.
Proof.
  unfold insert_row.
  destruct (existsb (same_entry name ty pth) t) eqn:E.
  - rewrite E. reflexivity.
  - rewrite existsb_app. simpl.
    rewrite same_entry_refl, orb_true_r. reflexivity.
Qed.

Lemma insert_entry_some name ty pth w t :
  db w = Some t ->
  insert_entry name ty pth w
  = (Ok tt, World (fs w) (Some (insert_row name ty pth t)) (log w)).
Proof. intros H. unfold insert_entry. rewrite H. reflexivity. Qed.

Lemma insert_all_table es w t :
  db w = Some t -> unique_rows t ->
  (insert_all es w).1 = Ok tt /\
  exists t', db (insert_all es w).2 = Some t' /\ unique_rows t'.
Proof.
  unfold insert_all. revert w t.
  induction es as [|e es IH]; intros w t Hdb U; simpl.
  - split; [reflexivity | eauto].
  - unfold bind. rewrite (insert_entry_some _ _ _ _ _ Hdb).
    apply (IH _ (insert_row e.1.1 e.1.2 e.2 t)); [reflexivity|].
    apply insert_row_unique, U.
Qed.

(** C6. After any sequence of insertions into the table created by
    [init_database], inserting an entry and then inserting the same
    (name, type, path) again raises no error, the second insertion
    leaves the world as it is, and the table holds exactly one row for
    the entry. *)
Theorem insert_entry_idempotent (w : world) (es : list (string * string * string))
    (name ty pth : string) :
  let w0 := (insert_all es (init_database w).2).2 in
  let once := insert_entry name ty pth w0 in
  let twice := insert_entry name ty pth once.2 in
  once.1 = Ok tt /\ twice.1 = Ok tt /\ twice.2 = once.2 /\
  exists t, db twice.2 = Some t /\ count_rows name ty pth t = 1.
Proof.
  intros w0 once twice.
  destruct (insert_all_table es (init_database w).2 [] eq_refl) as [_ (t & Ht & U)].
  { intros n' t' p'. unfold count_rows. simpl. lia. }
  fold w0 in Ht.
  assert (Honce : once = (Ok tt, World (fs w0) (Some (insert_row name ty pth t)) (log w0))).
  { unfold once. apply insert_entry_some, Ht. }
  assert (Htwice : twice = once).
  { unfold twice. rewrite Honce. unfold insert_entry. simpl.
    rewrite insert_row_again. reflexivity. }
  rewrite Htwice, Honce. simpl. repeat split.
  exists (insert_row name ty pth t). split; [reflexivity|].
  apply insert_row_count, U.
Qed.

(** ** The fetcher *)

(** C7, as stated in the specification: the fetcher never raises.  On a
    site that cannot be reached [urlopen] raises [URLError], which
    [do_request] does not catch. *)
Lemma do_request_can_raise :
  ~ (forall (net : string -> result string) (soup : string -> node) (url : string),
        exists r, do_request net soup url = Ok r).
Proof.
  intros H. destruct (H Sample.net_down Sample.soup SITE) as [r Hr].
  discriminate Hr.
Qed.

(** C7, amended.  The fetcher returns the parsed document when the
    retrieval succeeds and [None] when it fails with an HTTP error
    status; any other exception of the retrieval goes to the caller. *)
Theorem do_request_outcomes (net : string -> result string) (soup : string -> node)
    (url : string) :
  (forall html, net url = Ok html -> do_request net soup url = Ok (Some (soup html))) /\
  (net url = Raise HTTPError -> do_request net soup url = Ok None) /\
  (forall e, net url = Raise e -> e <> HTTPError -> do_request net soup url = Raise e).
Proof.
  unfold do_request. repeat split.
  - intros html ->. reflexivity.
  - intros ->. reflexivity.
  - intros e -> Hne. destruct e; try reflexivity. contradiction.
Qed.

Lemma do_request_outcomes_witness :
  do_request Sample.net Sample.soup SITE = Ok (Some Sample.class_page) /\
  do_request Sample.net_404 Sample.soup SITE = Ok None /\
  do_request Sample.net_down Sample.soup SITE = Raise URLError.
Proof.
  split; [|split].
  - apply (proj1 (do_request_outcomes Sample.net Sample.soup SITE) "<html>"). reflexivity.
  - apply (proj1 (proj2 (do_request_outcomes Sample.net_404 Sample.soup SITE))). reflexivity.
  - apply (proj2 (proj2 (do_request_outcomes Sample.net_down Sample.soup SITE)) URLError).
    + reflexivity.
    + discriminate.
Defined.

(** ** The page renderer *)

Lemma save_page_run file_name title html show_exists_error w :
  save_page file_name title html show_exists_error w
  = (Ok tt,
     World (<[file_name := HTML_TEMPLATE title html]> (fs w)) (db w)
       (log w
        ++ (if show_exists_error && bool_decide (is_Some (fs w !! file_name))
            then [Printed (exists_warning file_name)] else [])
        ++ [Wrote file_name (HTML_TEMPLATE title html)])).
Proof.
  unfold save_page, bind, path_exists, print, write_file, ret.
  destruct show_exists_error; simpl.
  - destruct (bool_decide (is_Some (fs w !! file_name))); simpl.
    + rewrite <- app_assoc. reflexivity.
    + reflexivity.
  - reflexivity.
Qed.


(** ** Strings *)

Lemma app_cons c s t : String c s +:+ t = String c (s +:+ t).
Proof. reflexivity. Qed.

Lemma app_empty_r s : s +:+ "" = s.
Proof. induction s as [|c s IH]; [reflexivity|]. rewrite app_cons, IH. reflexivity. Qed.

Lemma app_assoc_str a b c : (a +:+ b) +:+ c = a +:+ (b +:+ c).
Proof. induction a as [|x a IH]; [reflexivity|]. rewrite !app_cons, IH. reflexivity. Qed.

Lemma app_not_empty a b : b <> "" -> a +:+ b <> "".
Proof. destruct a; [intros H; exact H|]. intros _. rewrite app_cons. discriminate. Qed.

Lemma cat_app l1 l2 : Py.cat (l1 ++ l2) = Py.cat l1 +:+ Py.cat l2.
Proof.
  unfold Py.cat. induction l1 as [|x l1 IH]; simpl; [reflexivity|].
  rewrite IH, app_assoc_str. reflexivity.
Qed.

Lemma split_on_not_nil sep s : Py.split_on sep s <> [].
Proof.
  destruct s as [|c s]; simpl; [discriminate|].
  destruct (Ascii.eqb c sep); [discriminate|].
  destruct (Py.split_on sep s); discriminate.
Qed.

(** Splitting at a separator splits the list of components. *)
Lemma split_on_app_sep sep a b :
  Py.split_on sep (a +:+ String sep b) = Py.split_on sep a ++ Py.split_on sep b.
Proof.
  induction a as [|c a IH].
  - change ("" +:+ String sep b) with (String sep b). simpl.
    rewrite Ascii.eqb_refl. reflexivity.
  - rewrite app_cons. simpl. rewrite IH.
    destruct (Ascii.eqb c sep); [reflexivity|].
    destruct (Py.split_on sep a) as [|h t] eqn:E.
    + exfalso. exact (split_on_not_nil _ _ E).
    + reflexivity.
Qed.

Lemma split_on_no_sep sep s : Py.has_char sep s = false -> Py.split_on sep s = [s].
Proof.
  induction s as [|c s IH]; simpl; [reflexivity|].
  intros H. apply orb_false_elim in H as [Hc Hs].
  rewrite Hc, (IH Hs). reflexivity.
Qed.

Lemma split_on_parts sep s :
  Forall (fun x => Py.has_char sep x = false) (Py.split_on sep s).
Proof.
  induction s as [|c s IH]; simpl.
  - constructor; [reflexivity | constructor].
  - destruct (Ascii.eqb c sep) eqn:E.
    + constructor; [reflexivity | exact IH].
    + destruct (Py.split_on sep s) as [|h t]; inversion IH; subst.
      * constructor; [simpl; rewrite E; reflexivity | constructor].
      * constructor; [simpl; rewrite E; assumption | assumption].
Qed.

Lemma last_segment_app_sep a b :
  Py.last_segment (a +:+ String "/" b) = Py.last_segment b.
Proof.
  unfold Py.last_segment. rewrite split_on_app_sep, last_app.
  destruct (last (Py.split_on "/" b)) eqn:E; [reflexivity|].
  apply last_None in E. exfalso. exact (split_on_not_nil _ _ E).
Qed.

Lemma last_segment_no_sep s : Py.has_char "/" (Py.last_segment s) = false.
Proof.
  unfold Py.last_segment.
  destruct (last (Py.split_on "/" s)) as [x|] eqn:E; [|reflexivity].
  apply last_Some_elem_of in E.
  pose proof (split_on_parts "/" s) as F.
  rewrite Forall_forall in F. apply F, E.
Qed.

Lemma last_segment_id s : Py.has_char "/" s = false -> Py.last_segment s = s.
Proof. intros H. unfold Py.last_segment. rewrite (split_on_no_sep _ _ H). reflexivity. Qed.

Lemma split_on_last s :
  exists init, Py.split_on "/" s = init ++ [Py.last_segment s].
Proof.
  unfold Py.last_segment.
  destruct (last (Py.split_on "/" s)) as [x|] eqn:E.
  - apply last_Some in E as [l' E]. exists l'. exact E.
  - apply last_None in E. exfalso. exact (split_on_not_nil _ _ E).
Qed.

Lemma before_hash_no_hash s : Py.has_char "#" (Py.before_hash s) = false.
Proof.
  unfold Py.before_hash.
  pose proof (split_on_parts "#" s) as F.
  destruct (Py.split_on "#" s) as [|x l]; [reflexivity|].
  inversion F; subst. assumption.
Qed.

Lemma before_hash_page page frag :
  Py.has_char "#" page = false ->
  Py.before_hash (page +:+ "#" +:+ frag) = page.
Proof.
  intros H. unfold Py.before_hash.
  change ("#" +:+ frag) with (String "#" frag).
  rewrite split_on_app_sep, (split_on_no_sep _ _ H). reflexivity.
Qed.

Lemma before_hash_id s : Py.has_char "#" s = false -> Py.before_hash s = s.
Proof. intros H. unfold Py.before_hash. rewrite (split_on_no_sep _ _ H). reflexivity. Qed.

Lemma endswith_unfold suf s :
  Py.endswith suf s
  = (String.eqb s suf
     || match s with
        | EmptyString => false
        | String _ r => Py.endswith suf r
        end).
Proof. destruct s; reflexivity. Qed.

(** [endswith] finds a decomposition of the string, and conversely. *)
Lemma endswith_spec suf s :
  Py.endswith suf s = true <-> exists p, s = p +:+ suf.
Proof.
  split.
  - induction s as [|c s IH]; rewrite endswith_unfold; intros H.
    + rewrite orb_false_r in H. apply String.eqb_eq in H. exists "". rewrite <- H. reflexivity.
    + apply orb_prop in H as [H|H].
      * apply String.eqb_eq in H. exists "". rewrite <- H. reflexivity.
      * destruct (IH H) as [p ->]. exists (String c p). reflexivity.
  - intros [p ->]. induction p as [|c p IH].
    + change ("" +:+ suf) with suf. rewrite endswith_unfold, String.eqb_refl. reflexivity.
    + rewrite app_cons, endswith_unfold, IH. apply orb_true_r.
Qed.

(** ** Paths *)

Lemma concat_snoc sep l x :
  String.concat sep (l ++ [x])
  = match l with
    | [] => x
    | _ :: _ => String.concat sep l +:+ sep +:+ x
    end.
Proof.
  induction l as [|y l IH]; [reflexivity|].
  simpl app. destruct l as [|z l].
  - reflexivity.
  - change (String.concat sep (y :: (z :: l) ++ [x]))
      with (y +:+ sep +:+ String.concat sep ((z :: l) ++ [x])).
    rewrite IH.
    change (String.concat sep (y :: z :: l)) with (y +:+ sep +:+ String.concat sep (z :: l)).
    rewrite !app_assoc_str. reflexivity.
Qed.

Lemma norm_step_name n comps seg :
  seg <> "" -> seg <> "." -> seg <> ".." ->
  OsPath.norm_step n comps seg = comps ++ [seg].
Proof.
  intros H1 H2 H3. unfold OsPath.norm_step.
  apply String.eqb_neq in H1, H2, H3. rewrite H1, H2, H3. reflexivity.
Qed.

(** The last component of a path survives normalisation when it is a
    name. *)
Lemma basename_normpath p :
  Py.last_segment p <> "" -> Py.last_segment p <> "." -> Py.last_segment p <> ".." ->
  OsPath.basename (OsPath.normpath p) = Py.last_segment p.
Proof.
  intros H1 H2 H3. unfold OsPath.normpath, OsPath.basename.
  destruct (String.eqb_spec p "") as [->|Hp]; [exfalso; apply H1; reflexivity|].
  destruct (split_on_last p) as [init ->].
  rewrite fold_left_app. simpl fold_left.
  rewrite (norm_step_name _ _ _ H1 H2 H3).
  set (seg := Py.last_segment p) in *.
  set (comps := fold_left _ init []).
  assert (Hseg : Py.last_segment seg = seg) by apply last_segment_id, last_segment_no_sep.
  assert (Hform : exists y, String.concat "" (repeat "/" (OsPath.initial_slashes p))
                            +:+ String.concat "/" (comps ++ [seg]) = y +:+ seg
                            /\ (y = "" \/ exists z, y = z +:+ "/")).
  { rewrite concat_snoc. destruct comps as [|c comps'].
    - exists (String.concat "" (repeat "/" (OsPath.initial_slashes p))). split; [reflexivity|].
      unfold OsPath.initial_slashes.
      destruct (String.prefix "/" p); [|left; reflexivity].
      destruct (String.prefix "//" p && negb (String.prefix "///" p)).
      + right. exists "/". reflexivity.
      + right. exists "". reflexivity.
    - eexists. split; [rewrite <- !app_assoc_str; reflexivity|].
      right. eexists. reflexivity. }
  destruct Hform as (y & -> & Hy).
  assert (Hne : y +:+ seg <> "") by (apply app_not_empty; exact H1).
  apply String.eqb_neq in Hne. rewrite Hne.
  destruct Hy as [->|[z ->]]; [exact Hseg|].
  rewrite app_assoc_str. change ("/" +:+ seg) with (String "/" seg).
  rewrite last_segment_app_sep. exact Hseg.
Qed.

(** The last component of the argument of [abspath] at line 62 is the
    last component of the [href]. *)
Lemma last_segment_resolve_arg cwd d h :
  let p := d +:+ "/" +:+ h in
  Py.last_segment (if OsPath.isabs p then p else OsPath.join cwd p) = Py.last_segment h.
Proof.
  intros p.
  assert (Hp : forall x, Py.last_segment (x +:+ p) = Py.last_segment h).
  { intros x. unfold p. rewrite <- app_assoc_str.
    change ("/" +:+ h) with (String "/" h). apply last_segment_app_sep. }
  destruct (OsPath.isabs p); [exact (Hp "")|].
  unfold OsPath.join.
  destruct (String.prefix "/" p); [exact (Hp "")|].
  destruct (String.eqb cwd "" || Py.endswith "/" cwd); [apply Hp|].
  rewrite <- app_assoc_str. apply Hp.
Qed.

Lemma basename_resolve cwd url h :
  Py.last_segment h <> "" -> Py.last_segment h <> "." -> Py.last_segment h <> ".." ->
  OsPath.basename (resolve cwd url h) = Py.last_segment h.
Proof.
  intros H1 H2 H3. unfold resolve, OsPath.abspath.
  pose proof (last_segment_resolve_arg cwd (OsPath.dirname url) h) as E. simpl in E.
  rewrite basename_normpath; rewrite E; auto.
Qed.

(** ** Attributes *)

Lemma get_set_attr k v a : get_attr k (set_attr k v a) = Some v.
Proof.
  induction a as [|[k' v'] a IH]; simpl.
  - rewrite String.eqb_refl. reflexivity.
  - destruct (String.eqb k' k) eqn:E; simpl.
    + rewrite String.eqb_refl. reflexivity.
    + rewrite E. exact IH.
Qed.

(** ** The link rewriter *)

Lemma href_re_parent h : Py.startswith "../" h = true -> href_re h = true.
Proof.
  unfold Py.startswith. intros H. apply String.prefix_correct in H.
  destruct h as [|a [|b [|c r]]]; simpl in H; try discriminate H.
  injection H as -> -> -> _. reflexivity.
Qed.

Lemma href_re_needs_sep s : Py.has_char "/" s = false -> href_re s = false.
Proof.
  destruct s as [|a [|b [|c r]]]; simpl; try reflexivity.
  intros H. apply orb_false_elim in H as [_ H].
  apply orb_false_elim in H as [_ H]. apply orb_false_elim in H as [H _].
  rewrite H. apply andb_false_r.
Qed.

Lemma link_href_parent t a h :
  t = "a" \/ t = "area" -> get_attr "href" a = Some h ->
  Py.startswith "../" h = true -> link_href t a = Some h.
Proof.
  intros Ht Ha Hs. unfold link_href. rewrite Ha, (href_re_parent _ Hs).
  destruct Ht as [->| ->]; reflexivity.
Qed.

Lemma clean_forest_app cwd url l1 l2 :
  clean_forest cwd url (l1 ++ l2) = clean_forest cwd url l1 ++ clean_forest cwd url l2.
Proof. unfold clean_forest. apply flat_map_app. Qed.

Lemma clean_forest_cons cwd url n l :
  clean_forest cwd url (n :: l) = clean_node cwd url n ++ clean_forest cwd url l.
Proof. reflexivity. Qed.

(** The text of a fragment is not changed by the rewriter. *)
Lemma get_text_clean_node cwd url n :
  Py.cat (map get_text (clean_node cwd url n)) = get_text n.
Proof.
  induction n as [s | t a ch IH] using node_ind.
  - simpl. apply app_empty_r.
  - assert (E : Py.cat (map get_text (flat_map (clean_node cwd url) ch))
                = Py.cat (map get_text ch)).
    { induction IH as [|c r Hc _ IHr]; [reflexivity|].
      simpl. rewrite map_app, cat_app, Hc, IHr. reflexivity. }
    simpl. destruct (link_href t a) as [h|].
    + destruct (inside_doc cwd url h); simpl.
      * rewrite E. apply app_empty_r.
      * exact E.
    + simpl. rewrite E. apply app_empty_r.
Qed.

Lemma get_text_clean_forest cwd url l :
  Py.cat (map get_text (clean_forest cwd url l)) = Py.cat (map get_text l).
Proof.
  induction l as [|n l IH]; [reflexivity|].
  rewrite clean_forest_cons, map_app, cat_app, get_text_clean_node, IH. reflexivity.
Qed.

(** No node of the output is selected by the search of the rewriter. *)
Lemma clean_node_none_selected cwd url n :
  Forall (fun d => selected d = false) (flat_map subnodes (clean_node cwd url n)).
Proof.
  induction n as [s | t a ch IH] using node_ind.
  - simpl. constructor; [reflexivity | constructor].
  - assert (E : Forall (fun d => selected d = false)
                  (flat_map subnodes (flat_map (clean_node cwd url) ch))).
    { induction IH as [|c r Hc _ IHr]; [constructor|].
      simpl. rewrite flat_map_app. apply Forall_app. split; assumption. }
    simpl. destruct (link_href t a) as [h|] eqn:L.
    + destruct (inside_doc cwd url h); [|exact E].
      simpl. rewrite app_nil_r. constructor; [|exact E].
      unfold selected, link_href. rewrite get_set_attr.
      rewrite (href_re_needs_sep _ (last_segment_no_sep h)).
      destruct (String.eqb t "a" || String.eqb t "area"); reflexivity.
    + simpl. rewrite app_nil_r. constructor; [|exact E].
      unfold selected. rewrite L. reflexivity.
Qed.

Lemma clean_forest_none_selected cwd url l :
  Forall (fun d => selected d = false) (flat_map subnodes (clean_forest cwd url l)).
Proof.
  induction l as [|n l IH]; [constructor|].
  rewrite clean_forest_cons, flat_map_app. apply Forall_app. split.
  - apply clean_node_none_selected.
  - exact IH.
Qed.






(** C10.  The pattern of the search is [^../], in which a dot stands for
    any character: a link to a page in a directory with a name of two
    characters is selected although its [href] does not begin with
    [../], and it is rewritten. *)
Theorem clean_links_rewrites_other_links :
  Py.startswith "../" "qt/overview.html" = false /\
  clean_links Sample.cwd
    (Elem "div" [("class", "bodywrapper")]
       [Elem "a" [("href", "qt/overview.html")] [Text "Overview"]])
    (module_index_url "QtCore")
  = Elem "div" [("class", "bodywrapper")]
      [Elem "a" [("href", "overview.html")] [Text "Overview"]].
Proof. split; reflexivity. Qed.

(** C1.  The link to remove is searched with the module name as a
    pattern, and the first match is taken: when QtQuick is not found and
    the link of QtQuickWidgets comes first, the link of QtQuickWidgets
    is removed and that of QtQuick stays. *)
Theorem remove_links_takes_first_match :
  remove_links Sample.re_literal Sample.saved_root ["QtQuick"] = Ok Sample.pruned_root /\
  map (fun x => get_attr "href" (attrs_of x.2)) (find_all (is_tag "a") Sample.pruned_root)
  = [Some "QtQuick-index.html"].
Proof. split; reflexivity. Qed.

(** ** Paths into a tree *)

Lemma descendants_from_elem pre t a ch :
  descendants_from pre (Elem t a ch) = walk_from pre 0 ch.
Proof.
  simpl. generalize 0. induction ch as [|c r IH]; intros i; [reflexivity|].
  simpl. rewrite IH. reflexivity.
Qed.

(** A descendant is found at its path. *)
Lemma descendants_from_sound n :
  forall pre p d, In (p, d) (descendants_from pre n) ->
  exists q, p = pre ++ q /\ q <> [] /\ node_at q n = Some d.
Proof.
  induction n as [s | t a ch IH] using node_ind; intros pre p d Hin.
  - destruct Hin.
  - rewrite descendants_from_elem in Hin.
    assert (G : forall l i,
               Forall (fun n => forall pre p d, In (p, d) (descendants_from pre n) ->
                         exists q, p = pre ++ q /\ q <> [] /\ node_at q n = Some d) l ->
               (forall k c, l !! k = Some c -> ch !! (i + k) = Some c) ->
               In (p, d) (walk_from pre i l) ->
               exists q, p = pre ++ q /\ q <> [] /\ node_at q (Elem t a ch) = Some d).
    { clear Hin. induction l as [|c r IHl]; intros i F Hl Hin; [destruct Hin|].
      inversion F as [|? ? Hc Hr]; subst.
      simpl in Hin. destruct Hin as [Hin|Hin].
      - injection Hin as <- <-. exists [i]. split; [reflexivity|]. split; [discriminate|].
        simpl. rewrite <- (Nat.add_0_r i). rewrite (Hl 0 c eq_refl). reflexivity.
      - apply in_app_or in Hin as [Hin|Hin].
        + destruct (Hc _ _ _ Hin) as (q & -> & Hq & Hat).
          exists (i :: q). split; [rewrite <- app_assoc; reflexivity|].
          split; [discriminate|].
          simpl. rewrite <- (Nat.add_0_r i). rewrite (Hl 0 c eq_refl). exact Hat.
        + apply (IHl (S i) Hr); [|exact Hin].
          intros k c' Hk. rewrite Nat.add_succ_l, <- Nat.add_succ_r. apply Hl. exact Hk. }
    apply (G ch 0 IH); [|exact Hin].
    intros k c Hk. exact Hk.
Qed.

Lemma head_filter_In {A} (f : A -> bool) l x :
  head (List.filter f l) = Some x -> In x l /\ f x = true.
Proof.
  intros H. apply List.filter_In.
  destruct (List.filter f l) as [|y r]; [discriminate|].
  injection H as ->. left. reflexivity.
Qed.

Lemma find_sound f body p d :
  find f body = Some (p, d) -> p <> [] /\ node_at p body = Some d /\ f d = true.
Proof.
  unfold find, find_all. intros H. apply head_filter_In in H as [Hin Hf].
  apply descendants_from_sound in Hin as (q & -> & Hq & Hat).
  simpl. auto.
Qed.

Lemma node_at_snoc pp i n d :
  node_at (pp ++ [i]) n = Some d ->
  exists par, node_at pp n = Some par /\ children par !! i = Some d.
Proof.
  revert n. induction pp as [|j pp IH]; intros n H.
  - simpl in H. exists n. split; [reflexivity|].
    destruct (children n !! i); [exact H | discriminate].
  - simpl in *. destruct (children n !! j) as [c|]; [|discriminate].
    apply IH, H.
Qed.

Lemma node_at_put pp body new x :
  pp <> [] -> node_at pp body = Some x -> node_at pp (put pp new body) = Some new.
Proof.
  revert body. induction pp as [|i q IH]; intros body Hne Hat; [contradiction|].
  destruct body as [s | t a ch]; [discriminate|].
  simpl in Hat. destruct (ch !! i) as [c|] eqn:Hi; [|discriminate].
  unfold put, splice_in. simpl. rewrite Hi.
  pose proof (lookup_lt_Some _ _ _ Hi) as Hlen.
  destruct q as [|j q'].
  - rewrite lookup_app_r; rewrite length_take, Nat.min_l by lia; [|lia].
    rewrite Nat.sub_diag. reflexivity.
  - destruct c as [s | t' a' ch']; [discriminate|].
    rewrite list_lookup_insert_eq by exact Hlen.
    apply (IH (Elem t' a' ch')); [discriminate | exact Hat].
Qed.

(** ** Inheritance links *)

Lemma strip_links_spec l l' :
  strip_links l = Ok l' ->
  forall k link, l !! k = Some link -> is_tag "a" link = true ->
  exists h, getitem "href" link = Ok h /\
            l' !! k = Some (setitem "href" (Py.before_hash h) link).
Proof.
  revert l'. induction l as [|n r IH]; intros l' H k link Hk Ha; [discriminate|].
  simpl in H. destruct (strip_link n) as [n'|] eqn:En; [|discriminate].
  destruct (strip_links r) as [r'|] eqn:Er; [|discriminate].
  injection H as <-. destruct k as [|k]; simpl in Hk.
  - injection Hk as ->. unfold strip_link in En. rewrite Ha in En.
    destruct (getitem "href" link) as [h|]; [|discriminate].
    injection En as <-. exists h. split; reflexivity.
  - apply (IH r' eq_refl k link Hk Ha).
Qed.

(** C5. When a class page has an [Inherited by:] heading, every link
    among the siblings that follow it has its [href] cut at the first
    [#]: the new value holds no [#], and it is the page path when the
    old value was a page path followed by a fragment identifier. *)
Theorem inherited_links_lose_fragment (body body' : node) (pp : path) (i : nat)
    (strong : node) :
  find is_inherited_strong body = Some (pp ++ [i], strong) ->
  strip_inherited_anchors body = Ok body' ->
  exists t a ch ch',
    node_at pp body = Some (Elem t a ch) /\ ch !! i = Some strong /\
    node_at pp body' = Some (Elem t a ch') /\
    forall j link, i < j -> ch !! j = Some link -> is_tag "a" link = true ->
      exists h, getitem "href" link = Ok h /\
                ch' !! j = Some (setitem "href" (Py.before_hash h) link) /\
                Py.has_char "#" (Py.before_hash h) = false /\
                forall page frag, h = page +:+ "#" +:+ frag ->
                                  Py.has_char "#" page = false ->
                                  Py.before_hash h = page.
Proof.
  intros Hfind Hstrip.
  destruct (find_sound _ _ _ _ Hfind) as (_ & Hat & _).
  apply node_at_snoc in Hat as (par & Hpar & Hi).
  destruct par as [s | t a ch]; [discriminate|]. simpl in Hi.
  unfold strip_inherited_anchors in Hstrip.
  rewrite Hfind, removelast_last, last_snoc, Hpar in Hstrip. simpl in Hstrip.
  destruct (strip_links (drop (S i) ch)) as [links|] eqn:El; [|discriminate].
  injection Hstrip as <-.
  exists t, a, ch, (take (S i) ch ++ links). split; [exact Hpar|]. split; [exact Hi|]. split.
  - destruct pp as [|k pp']; [reflexivity|].
    apply node_at_put with (x := Elem t a ch); [discriminate | exact Hpar].
  - intros j link Hj Hlink Ha.
    assert (Hd : drop (S i) ch !! (j - S i) = Some link).
    { rewrite lookup_drop. replace (S i + (j - S i)) with j by lia. exact Hlink. }
    destruct (strip_links_spec _ _ El _ _ Hd Ha) as (h & Hh & Hl).
    exists h. split; [exact Hh|]. split; [|split].
    + pose proof (lookup_lt_Some _ _ _ Hi) as Hlen.
      rewrite lookup_app_r; rewrite length_take, Nat.min_l by lia; [exact Hl | lia].
    + apply before_hash_no_hash.
    + intros page frag -> Hp. apply before_hash_page, Hp.
Qed.

Lemma inherited_links_lose_fragment_witness :
  exists t a ch ch',
    node_at [0] Sample.class_body = Some (Elem t a ch) /\
    ch !! 0 = Some (Elem "strong" [] [Text "Inherited by:"]) /\
    node_at [0] Sample.stripped_class_body = Some (Elem t a ch') /\
    forall j link, 0 < j -> ch !! j = Some link -> is_tag "a" link = true ->
      exists h, getitem "href" link = Ok h /\
                ch' !! j = Some (setitem "href" (Py.before_hash h) link) /\
                Py.has_char "#" (Py.before_hash h) = false /\
                forall page frag, h = page +:+ "#" +:+ frag ->
                                  Py.has_char "#" page = false ->
                                  Py.before_hash h = page.
Proof.
  exact (inherited_links_lose_fragment Sample.class_body Sample.stripped_class_body [0] 0
           (Elem "strong" [] [Text "Inherited by:"]) eq_refl eq_refl).
Defined.

(** ** Properties of the world kept by the script *)

Lemma preserves_bind {A B} (I : world -> Prop) (m : M A) (k : A -> M B) :
  preserves I m -> (forall a, preserves I (k a)) -> preserves I (bind m k).
Proof.
  intros Hm Hk w Hw. unfold bind. specialize (Hm w Hw).
  destruct (m w) as [[a|e] w1]; simpl in *.
  - apply Hk, Hm.
  - exact Hm.
Qed.

Lemma preserves_pure {A} (I : world -> Prop) (m : M A) :
  (forall w, (m w).2 = w) -> preserves I m.
Proof. intros H w Hw. rewrite H. exact Hw. Qed.

Lemma preserves_ret {A} I (a : A) : preserves I (ret a).
Proof. apply preserves_pure. reflexivity. Qed.

Lemma preserves_raise {A} I e : preserves I (@raise A e).
Proof. apply preserves_pure. reflexivity. Qed.

Lemma preserves_lift {A} I (r : result A) : preserves I (lift r).
Proof. apply preserves_pure. reflexivity. Qed.

Lemma preserves_path_exists I f : preserves I (path_exists f).
Proof. apply preserves_pure. reflexivity. Qed.

Lemma preserves_read_file I f : preserves I (read_file f).
Proof. apply preserves_pure. intros w. unfold read_file. destruct (fs w !! f); reflexivity. Qed.

Lemma preserves_for_each {A} I (l : list A) (body : A -> M unit) :
  (forall x, preserves I (body x)) -> preserves I (for_each l body).
Proof.
  intros H. induction l as [|x l IH]; simpl.
  - apply preserves_ret.
  - apply preserves_bind; [apply H | intros _; exact IH].
Qed.

Lemma preserves_map_m {A B} I (f : A -> M B) (l : list A) :
  (forall x, preserves I (f x)) -> preserves I (map_m f l).
Proof.
  intros H. induction l as [|x l IH]; simpl.
  - apply preserves_ret.
  - apply preserves_bind; [apply H | intros y].
    apply preserves_bind; [exact IH | intros ys; apply preserves_ret].
Qed.

Lemma preserves_fold_m {A S} I (f : S -> A -> M S) (l : list A) :
  (forall s x, preserves I (f s x)) -> forall s, preserves I (fold_m f s l).
Proof.
  intros H. induction l as [|x l IH]; intros s; simpl.
  - apply preserves_ret.
  - apply preserves_bind; [apply H | intros s'; apply IH].
Qed.

Create HintDb pres.
#[export] Hint Resolve preserves_ret preserves_raise preserves_lift
  preserves_path_exists preserves_read_file : pres.

Ltac pres_step :=
  lazymatch goal with
  | |- preserves _ (bind _ _) => apply preserves_bind; [|intros]
  | |- preserves _ (for_each _ _) => apply preserves_for_each; intros
  | |- preserves _ (map_m _ _) => apply preserves_map_m; intros
  | |- preserves _ (fold_m _ _ _) => apply preserves_fold_m; intros
  | |- preserves _ (match ?x with _ => _ end) => destruct x
  end.

Ltac pres := cbv zeta; repeat (pres_step; cbv zeta); eauto with pres.

Section Kept.

Variable I : world -> Prop.
Hypothesis I_print : forall s, preserves I (print s).
Hypothesis I_write : forall f c, preserves I (write_file f c).
Hypothesis I_insert : forall n t p, preserves I (insert_entry n t p).

Variable cwd : string.
Variable net : string -> result string.
Variable soup : string -> node.
Variable to_str : node -> string.
Variable re_compile : string -> option (string -> bool).

Hint Resolve I_print I_write I_insert : pres.

Lemma preserves_save_page f t h s : preserves I (save_page f t h s).
Proof. unfold save_page. pres. Qed.

Lemma preserves_download_file url f : preserves I (download_file net url f).
Proof. unfold download_file. pres. Qed.

Hint Resolve preserves_save_page preserves_download_file : pres.

Lemma preserves_download_image image : preserves I (download_image net image).
Proof. unfold download_image. pres. Qed.

Lemma preserves_index_method m c f method : preserves I (index_method m c f method).
Proof. unfold index_method. pres. Qed.

Hint Resolve preserves_download_image preserves_index_method : pres.

Lemma preserves_parse_class_page m c :
  preserves I (parse_class_page cwd net soup to_str m c).
Proof. unfold parse_class_page. pres. Qed.

Lemma preserves_parse_module_index_page m :
  preserves I (parse_module_index_page cwd net soup to_str m).
Proof. unfold parse_module_index_page. pres. Qed.

Hint Resolve preserves_parse_class_page preserves_parse_module_index_page : pres.

Lemma preserves_crawl_module acc module :
  preserves I (crawl_module cwd net soup to_str acc module).
Proof. unfold crawl_module. pres. Qed.

Lemma preserves_parse_main_page : preserves I (parse_main_page net soup to_str).
Proof. unfold parse_main_page. pres. Qed.

Hint Resolve preserves_crawl_module preserves_parse_main_page : pres.

Lemma preserves_crawl : preserves I (crawl cwd net soup to_str re_compile).
Proof. unfold crawl. pres. Qed.

End Kept.

(** ** Class entries *)

Lemma last_char_app p s : s <> "" -> last_char (p +:+ s) = last_char s.
Proof.
  intros Hs. induction p as [|c p IH]; [reflexivity|].
  rewrite app_cons. simpl. rewrite IH.
  destruct s as [|d s]; [contradiction|].
  simpl. destruct (last_char s); reflexivity.
Qed.

Lemma suffixes_differ (suf1 suf2 : string) p1 p2 :
  suf1 <> "" -> suf2 <> "" -> last_char suf1 <> last_char suf2 ->
  p1 +:+ suf1 <> p2 +:+ suf2.
Proof.
  intros H1 H2 Hne E. apply Hne.
  rewrite <- (last_char_app p1 suf1 H1), <- (last_char_app p2 suf2 H2), E. reflexivity.
Qed.

Lemma endswith_false suf s : (~ exists p, s = p +:+ suf) -> Py.endswith suf s = false.
Proof.
  intros H. destruct (Py.endswith suf s) eqn:E; [|reflexivity].
  exfalso. apply H, endswith_spec, E.
Qed.

(** The type follows the suffix of the name. *)
Lemma database_type_spec name :
  ((exists p, name = p +:+ "Event") -> database_type name = "Event") /\
  ((exists p, name = p +:+ "Interface") -> database_type name = "Interface") /\
  ((exists p, name = p +:+ "Enum") -> database_type name = "Enum") /\
  ((~ exists p, name = p +:+ "Event") -> (~ exists p, name = p +:+ "Interface") ->
   (~ exists p, name = p +:+ "Enum") -> database_type name = "Class").
Proof.
  unfold database_type. repeat split.
  - intros H. apply endswith_spec in H. rewrite H. reflexivity.
  - intros [p ->].
    rewrite (endswith_false "Event").
    + rewrite (proj2 (endswith_spec "Interface" _)) by eauto. reflexivity.
    + intros [q E]. revert E. apply suffixes_differ; discriminate.
  - intros [p ->].
    rewrite (endswith_false "Event"), (endswith_false "Interface").
    + rewrite (proj2 (endswith_spec "Enum" _)) by eauto. reflexivity.
    + intros [q E]. revert E. apply suffixes_differ; discriminate.
    + intros [q E]. revert E. apply suffixes_differ; discriminate.
  - intros H1 H2 H3.
    rewrite (endswith_false _ _ H1), (endswith_false _ _ H2), (endswith_false _ _ H3).
    reflexivity.
Qed.

Lemma insert_row_holds name ty pth t :
  exists id, Row id name ty pth ∈ insert_row name ty pth t.
Proof.
  unfold insert_row. destruct (existsb (same_entry name ty pth) t) eqn:E.
  - apply existsb_exists in E as (r & Hin & Hr).
    apply same_entry_eq in Hr as (<- & <- & <-).
    exists (row_id r). destruct r. apply list_elem_of_In, Hin.
  - exists (next_id t). apply elem_of_app. right. apply list_elem_of_singleton. reflexivity.
Qed.

Lemma insert_row_keeps r name ty pth t : r ∈ t -> r ∈ insert_row name ty pth t.
Proof.
  intros H. unfold insert_row. destruct (existsb _ t); [exact H|].
  apply elem_of_app. left. exact H.
Qed.

Lemma insert_entry_ok name ty pth w w' :
  insert_entry name ty pth w = (Ok tt, w') -> holds_entry name ty pth w'.
Proof.
  unfold insert_entry. destruct (db w) as [t|]; [|discriminate].
  intros H. injection H as <-.
  destruct (insert_row_holds name ty pth t) as [id Hid].
  exists (insert_row name ty pth t), id. split; [reflexivity | exact Hid].
Qed.

Lemma holds_entry_print name ty pth s : preserves (holds_entry name ty pth) (print s).
Proof. intros w H. exact H. Qed.

Lemma holds_entry_write name ty pth f c : preserves (holds_entry name ty pth) (write_file f c).
Proof. intros w H. exact H. Qed.

Lemma holds_entry_insert name ty pth n t p :
  preserves (holds_entry name ty pth) (insert_entry n t p).
Proof.
  intros w (tb & id & Hdb & Hin). unfold insert_entry. rewrite Hdb. simpl.
  exists (insert_row n t p tb), id. split; [reflexivity|].
  apply insert_row_keeps, Hin.
Qed.

Lemma preserves_run {A} (I : world -> Prop) (m : M A) w r w' :
  preserves I m -> m w = (r, w') -> I w -> I w'.
Proof. intros P E Hw. specialize (P w Hw). rewrite E in P. exact P. Qed.

Ltac bind_inv H :=
  let a := fresh "a" in
  let w := fresh "w" in
  let Hm := fresh "Hm" in
  apply bind_ok in H as (a & w & Hm & H).

(** C4. When a class page has been processed, the table holds the
    entry of the class, and its type follows the suffix of the class
    name: Event, Interface or Enum for a name that ends so, Class for
    every other name. *)
Theorem class_entry_type_by_suffix (cwd : string) (net : string -> result string)
    (soup : string -> node) (to_str : node -> string) (module name : string)
    (w w' : world) :
  parse_class_page cwd net soup to_str module (Some name) w = (Ok tt, w') ->
  exists ty,
    holds_entry ("PySide2." +:+ module +:+ "." +:+ name) ty (name +:+ ".html") w' /\
    ((exists p, name = p +:+ "Event") -> ty = "Event") /\
    ((exists p, name = p +:+ "Interface") -> ty = "Interface") /\
    ((exists p, name = p +:+ "Enum") -> ty = "Enum") /\
    ((~ exists p, name = p +:+ "Event") -> (~ exists p, name = p +:+ "Interface") ->
     (~ exists p, name = p +:+ "Enum") -> ty = "Class").
Proof.
  intros H. exists (database_type name). split; [|apply database_type_spec].
  unfold parse_class_page in H. cbv zeta in H.
  do 7 bind_inv H. clear Hm Hm0 Hm1 Hm2 Hm3 Hm4 Hm5.
  bind_inv H. apply lift_ok in Hm as [Hm ->]. injection Hm as <-.
  bind_inv H. destruct a6. apply insert_entry_ok in Hm.
  refine (preserves_run _ _ _ _ _ _ H Hm).
  destruct (find _ _) as [[? synopsis]|].
  - apply preserves_for_each. intros method.
    apply preserves_index_method.
    intros; apply holds_entry_insert.
  - apply preserves_ret.
Qed.

Lemma class_entry_type_by_suffix_witness :
  exists ty,
    holds_entry "PySide2.QtGui.QKeyEvent" ty "QKeyEvent.html"
      (parse_class_page Sample.cwd Sample.net Sample.soup Sample.show "QtGui" (Some "QKeyEvent")
         (World ∅ (Some []) [])).2 /\
    ((exists p, "QKeyEvent" = p +:+ "Event") -> ty = "Event") /\
    ((exists p, "QKeyEvent" = p +:+ "Interface") -> ty = "Interface") /\
    ((exists p, "QKeyEvent" = p +:+ "Enum") -> ty = "Enum") /\
    ((~ exists p, "QKeyEvent" = p +:+ "Event") -> (~ exists p, "QKeyEvent" = p +:+ "Interface") ->
     (~ exists p, "QKeyEvent" = p +:+ "Enum") -> ty = "Class").
Proof.
  apply (class_entry_type_by_suffix Sample.cwd Sample.net Sample.soup Sample.show
           "QtGui" "QKeyEvent" (World ∅ (Some []) [])).
  vm_compute. reflexivity.
Defined.

(** ** A module that is not found *)

(** The round of the loop for a module whose index page is not found
    prints two lines and records the module; it writes no file and
    inserts no entry. *)
Lemma crawl_module_not_found cwd net soup to_str acc module s w :
  tag_string module = Some s ->
  net (module_index_url (Py.replace " " "" s)) = Raise HTTPError ->
  crawl_module cwd net soup to_str acc module w
  = (Ok (acc ++ [Py.replace " " "" s]),
     World (fs w) (db w)
       (log w ++ [Printed ("Indexing " +:+ Py.replace " " "" s +:+ eol);
                  Printed (red "  -- Page not found. Skip..." +:+ eol)])).
Proof.
  intros Hs Hnet.
  unfold crawl_module, parse_module_index_page, do_request, bind, lift, print, ret.
  rewrite Hs. simpl. rewrite Hnet. simpl. rewrite <- app_assoc. reflexivity.
Qed.

(** ** Two runs of the script *)

Lemma det_bind {A B} K K' K'' (m : M A) (k : A -> M B) :
  det K K' m -> (forall a, det K' K'' (k a)) -> det K K'' (bind m k).
Proof.
  intros Hm Hk w1 w2 Hw. unfold bind.
  destruct (Hm w1 w2 Hw) as (Hr & Hdb & Hfs).
  destruct (m w1) as [[a1|e1] v1], (m w2) as [[a2|e2] v2]; simpl in *;
    try discriminate Hr.
  - injection Hr as <-. apply Hk. split; [exact Hdb | exact (Hfs a1 eq_refl)].
  - injection Hr as <-. split; [reflexivity|]. split; [exact Hdb|].
    intros a Ha. discriminate Ha.
Qed.

(** A computation that does not touch the world and does not read the
    files. *)
Lemma det_pure {A} K (r : result A) (m : M A) :
  (forall w, m w = (r, w)) -> det K K m.
Proof.
  intros H w1 w2 [Hdb Hfs]. rewrite !H. simpl. auto.
Qed.

Lemma det_ret {A} K (a : A) : det K K (ret a).
Proof. apply (det_pure K (Ok a)). reflexivity. Qed.

Lemma det_raise {A} K e : det K K (@raise A e).
Proof. apply (det_pure K (Raise e)). reflexivity. Qed.

Lemma det_lift {A} K (r : result A) : det K K (lift r).
Proof. apply (det_pure K r). reflexivity. Qed.

Lemma det_print K s : det K K (print s).
Proof. intros w1 w2 [Hdb Hfs]. simpl. auto. Qed.

Lemma det_insert_entry K n t p : det K K (insert_entry n t p).
Proof.
  intros w1 w2 [Hdb Hfs]. unfold insert_entry. rewrite <- Hdb.
  destruct (db w1) eqn:E; simpl; repeat split; auto; congruence.
Qed.

(** A write adds its file to those on which the worlds agree. *)
Lemma det_write_file K f c : det K (with_file K f) (write_file f c).
Proof.
  intros w1 w2 [Hdb Hfs]. simpl. split; [reflexivity|]. split; [exact Hdb|].
  intros _ _ g [Hg| ->].
  - rewrite !lookup_insert. destruct (decide (f = g)); [reflexivity | apply Hfs, Hg].
  - rewrite !lookup_insert_eq. reflexivity.
Qed.

Lemma det_read_file (K : string -> Prop) f : K f -> det K K (read_file f).
Proof.
  intros Hf w1 w2 [Hdb Hfs]. unfold read_file. rewrite <- (Hfs f Hf).
  destruct (fs w1 !! f) eqn:E; simpl; repeat split; auto.
Qed.

(** Agreement on more files gives agreement on fewer. *)
Lemma det_post {A} (K K1 K2 : string -> Prop) (m : M A) :
  (forall f, K2 f -> K1 f) -> det K K1 m -> det K K2 m.
Proof.
  intros Hsub Hm w1 w2 Hw. destruct (Hm w1 w2 Hw) as (Hr & Hdb & Hfs).
  split; [exact Hr|]. split; [exact Hdb|].
  intros a Ha f Hf. apply (Hfs a Ha), Hsub, Hf.
Qed.

Lemma det_write_file_same K f c : det K K (write_file f c).
Proof. apply (det_post K (with_file K f)); [intros g Hg; left; exact Hg | apply det_write_file]. Qed.

(** The page renderer reads the directory only to decide on the
    warning. *)
Lemma det_save_page_new K f t h s : det K (with_file K f) (save_page f t h s).
Proof.
  intros w1 w2 [Hdb Hfs]. rewrite !save_page_run. simpl.
  split; [reflexivity|]. split; [exact Hdb|].
  intros _ _ g [Hg| ->].
  - rewrite !lookup_insert. destruct (decide (f = g)); [reflexivity | apply Hfs, Hg].
  - rewrite !lookup_insert_eq. reflexivity.
Qed.

Lemma det_save_page K f t h s : det K K (save_page f t h s).
Proof. apply (det_post K (with_file K f)); [intros g Hg; left; exact Hg | apply det_save_page_new]. Qed.

Lemma det_for_each {A} K (l : list A) (body : A -> M unit) :
  (forall x, det K K (body x)) -> det K K (for_each l body).
Proof.
  intros H. induction l as [|x l IH]; simpl.
  - apply det_ret.
  - eapply det_bind; [apply H | intros _; exact IH].
Qed.

Lemma det_map_m {A B} K (f : A -> M B) (l : list A) :
  (forall x, det K K (f x)) -> det K K (map_m f l).
Proof.
  intros H. induction l as [|x l IH]; simpl.
  - apply det_ret.
  - eapply det_bind; [apply H | intros y].
    eapply det_bind; [exact IH | intros ys; apply det_ret].
Qed.

Lemma det_fold_m {A S} K (f : S -> A -> M S) (l : list A) :
  (forall s x, det K K (f s x)) -> forall s, det K K (fold_m f s l).
Proof.
  intros H. induction l as [|x l IH]; intros s; simpl.
  - apply det_ret.
  - eapply det_bind; [apply H | intros s'; apply IH].
Qed.

Create HintDb det.
#[export] Hint Resolve det_ret det_raise det_lift det_print det_insert_entry
  det_write_file_same det_save_page : det.

Ltac det_step :=
  lazymatch goal with
  | |- det _ _ (bind _ _) => eapply det_bind; [solve [eauto with det] | intros]
  | |- det _ _ (for_each _ _) => apply det_for_each; intros
  | |- det _ _ (map_m _ _) => apply det_map_m; intros
  | |- det _ _ (fold_m _ _ _) => apply det_fold_m; intros
  | |- det _ _ (match ?x with _ => _ end) => destruct x
  end.

Ltac det_auto := cbv zeta; repeat (det_step; cbv zeta); eauto with det.

Section Rerun.

Variable cwd : string.
Variable net : string -> result string.
Variable soup : string -> node.
Variable to_str : node -> string.
Variable re_compile : string -> option (string -> bool).

Lemma det_download_file K url f : det K K (download_file net url f).
Proof. unfold download_file. det_auto. Qed.

Hint Resolve det_download_file : det.

Lemma det_download_image K image : det K K (download_image net image).
Proof. unfold download_image. det_auto. Qed.

Lemma det_index_method K m c f method : det K K (index_method m c f method).
Proof. unfold index_method. det_auto. Qed.

Hint Resolve det_download_image det_index_method : det.

Lemma det_parse_class_page K m c : det K K (parse_class_page cwd net soup to_str m c).
Proof.
  unfold parse_class_page. cbv zeta.
  do 4 (eapply det_bind; [apply det_lift | intros]).
  eapply det_bind; [apply det_map_m; intros; apply det_download_image | intros].
  det_auto.
Qed.

Lemma det_parse_module_index_page K m :
  det K K (parse_module_index_page cwd net soup to_str m).
Proof. unfold parse_module_index_page. det_auto. Qed.

Hint Resolve det_parse_class_page det_parse_module_index_page : det.

Lemma det_crawl_module K acc module :
  det K K (crawl_module cwd net soup to_str acc module).
Proof.
  unfold crawl_module. cbv zeta.
  do 2 (eapply det_bind; [eauto with det | intros]).
  destruct a0 as [body|].
  - eapply det_bind; [apply det_lift | intros].
    eapply det_bind; [|intros; det_auto].
    apply det_for_each. intros f. det_auto.
  - det_auto.
Qed.

(** After the root page is saved the two worlds hold the same
    [index.html]. *)
Lemma det_parse_main_page K :
  det K (with_file K "index.html") (parse_main_page net soup to_str).
Proof.
  unfold parse_main_page. cbv zeta.
  do 7 (eapply det_bind; [apply det_lift | intros]).
  eapply det_bind; [apply det_save_page_new | intros; apply det_ret].
Qed.

Lemma det_crawl :
  det no_file (with_file no_file "index.html") (crawl cwd net soup to_str re_compile).
Proof.
  unfold crawl.
  eapply det_bind; [apply det_download_file | intros].
  eapply det_bind; [apply det_parse_main_page | intros].
  eapply det_bind; [apply det_fold_m; intros; apply det_crawl_module | intros].
  eapply det_bind; [apply det_read_file; right; reflexivity | intros].
  det_auto.
Qed.

Lemma main_unfold w :
  main cwd net soup to_str re_compile w
  = bind (download_css net) (fun _ => crawl cwd net soup to_str re_compile)
      (World (fs w) (Some []) (log w)).
Proof. reflexivity. Qed.

(** The outcomes of [download_css]. *)
Lemma download_css_fetched content w :
  net CSS_URL = Ok content ->
  exists v, download_css net w = (Ok tt, v) /\ db v = db w /\ has_file "main.css" v.
Proof.
  intros Hnet. unfold download_css, download_file, bind. fold CSS_URL. rewrite Hnet.
  unfold write_file, ret, read_file, bind. simpl. rewrite lookup_insert_eq.
  eexists. split; [reflexivity|]. split; [reflexivity|].
  unfold has_file. simpl. rewrite lookup_insert_eq. eauto.
Qed.

Lemma download_css_kept c w :
  net CSS_URL = Raise HTTPError -> fs w !! "main.css" = Some c ->
  exists v, download_css net w = (Ok tt, v) /\ db v = db w /\ has_file "main.css" v.
Proof.
  intros Hnet Hc. unfold download_css, download_file, bind. fold CSS_URL. rewrite Hnet.
  unfold write_file, ret, read_file. rewrite Hc.
  eexists. split; [reflexivity|]. split; [reflexivity|].
  unfold has_file. simpl. rewrite lookup_insert_eq. eauto.
Qed.

Lemma download_css_missing w :
  net CSS_URL = Raise HTTPError -> fs w !! "main.css" = None ->
  download_css net w = (Raise FileNotFoundError, w).
Proof.
  intros Hnet Hc. unfold download_css, download_file, bind. fold CSS_URL. rewrite Hnet.
  unfold ret, read_file. rewrite Hc. reflexivity.
Qed.

Lemma download_css_raise e w :
  net CSS_URL = Raise e -> e <> HTTPError -> download_css net w = (Raise e, w).
Proof.
  intros Hnet He. unfold download_css, download_file, bind. fold CSS_URL. rewrite Hnet.
  destruct e; try reflexivity. contradiction.
Qed.

(** Where [main] stops in [download_css], the table is empty and the
    files are those found at the start. *)
Lemma main_stops e w :
  download_css net (World (fs w) (Some []) (log w))
  = (Raise e, World (fs w) (Some []) (log w)) ->
  main cwd net soup to_str re_compile w = (Raise e, World (fs w) (Some []) (log w)).
Proof. intros H. rewrite main_unfold. unfold bind. rewrite H. reflexivity. Qed.

(** Where [main] passes [download_css], it crawls from a world with an
    empty table in which [main.css] exists. *)
Lemma main_goes v w :
  download_css net (World (fs w) (Some []) (log w)) = (Ok tt, v) ->
  main cwd net soup to_str re_compile w = crawl cwd net soup to_str re_compile v.
Proof. intros H. rewrite main_unfold. unfold bind. rewrite H. reflexivity. Qed.

Lemma crawl_twice v1 v2 :
  db v1 = db v2 ->
  (crawl cwd net soup to_str re_compile v1).1 = (crawl cwd net soup to_str re_compile v2).1 /\
  db (crawl cwd net soup to_str re_compile v1).2 = db (crawl cwd net soup to_str re_compile v2).2.
Proof.
  intros Hdb.
  destruct (det_crawl v1 v2) as (Hr & Hd & _).
  - split; [exact Hdb | intros f []].
  - split; assumption.
Qed.

Lemma crawl_keeps_file f v :
  has_file f v -> has_file f (crawl cwd net soup to_str re_compile v).2.
Proof.
  apply preserves_crawl.
  - intros s w H. exact H.
  - intros g c w [x H]. unfold has_file. simpl. rewrite lookup_insert.
    destruct (decide (g = f)); eauto.
  - intros n t p w H. unfold insert_entry. destruct (db w); exact H.
Qed.

Lemma crawl_keeps_table v :
  has_table v -> has_table (crawl cwd net soup to_str re_compile v).2.
Proof.
  apply preserves_crawl.
  - intros s w H. exact H.
  - intros g c w H. exact H.
  - intros n t p w [tb Ht]. unfold insert_entry, has_table. rewrite Ht. simpl. eauto.
Qed.

(** Two runs that both pass [download_css] end alike. *)
Lemma runs_agree w1 w2 v1 v2 :
  download_css net (World (fs w1) (Some []) (log w1)) = (Ok tt, v1) ->
  download_css net (World (fs w2) (Some []) (log w2)) = (Ok tt, v2) ->
  db v1 = Some [] -> db v2 = Some [] ->
  (main cwd net soup to_str re_compile w2).1 = (main cwd net soup to_str re_compile w1).1 /\
  exists t, db (main cwd net soup to_str re_compile w1).2 = Some t /\
            db (main cwd net soup to_str re_compile w2).2 = Some t.
Proof.
  intros H1 H2 D1 D2. rewrite (main_goes _ _ H1), (main_goes _ _ H2).
  destruct (crawl_twice v1 v2) as [Hr Hd]; [congruence|].
  split; [symmetry; exact Hr|].
  destruct (crawl_keeps_table v1) as [t Ht]; [unfold has_table; rewrite D1; eauto|].
  exists t. split; [exact Ht | rewrite <- Hd; exact Ht].
Qed.


End Rerun.

(** * Further properties *)

(** ** The link rewriter *)

Lemma selected_false t a ch : selected (Elem t a ch) = false -> link_href t a = None.
Proof.
  unfold selected. destruct (link_href t a); [|reflexivity].
  intros H. apply bool_decide_eq_false in H. exfalso. apply H. eauto.
Qed.

Lemma clean_node_fixed cwd url n :
  Forall (fun d => selected d = false) (subnodes n) -> clean_node cwd url n = [n].
Proof.
  induction n as [s | t a ch IH] using node_ind; intros F; [reflexivity|].
  simpl in F. inversion F as [|? ? Hsel Hch]; subst.
  simpl. rewrite (selected_false _ _ _ Hsel). f_equal. f_equal.
  clear Hsel F. induction IH as [|c r Hc _ IHr]; [reflexivity|].
  simpl in Hch. apply Forall_app in Hch as [H1 H2].
  simpl. rewrite (Hc H1), (IHr H2). reflexivity.
Qed.

Lemma clean_forest_fixed cwd url l :
  Forall (fun d => selected d = false) (flat_map subnodes l) -> clean_forest cwd url l = l.
Proof.
  induction l as [|n l IH]; intros F; [reflexivity|].
  simpl in F. apply Forall_app in F as [H1 H2].
  rewrite clean_forest_cons, (clean_node_fixed _ _ _ H1), (IH H2). reflexivity.
Qed.

Lemma clean_links_fixed cwd body url :
  Forall (fun d => selected d = false) (flat_map subnodes (children body)) ->
  clean_links cwd body url = body.
Proof.
  intros F. destruct body as [s | t a ch]; [reflexivity|].
  simpl in *. rewrite (clean_forest_fixed _ _ _ F). reflexivity.
Qed.

(** X1. A fragment in which no anchor or area has an [href] that the
    pattern of line 61 matches is returned as it is. *)
Theorem clean_links_without_links (cwd : string) (body : node) (url : string) :
  Forall (fun d => selected d = false) (flat_map subnodes (children body)) ->
  clean_links cwd body url = body.
Proof. apply clean_links_fixed. Qed.

Lemma clean_links_without_links_witness :
  clean_links Sample.cwd
    (Elem "div" [] [Elem "a" [("href", "QObject.html#more")] [Text "QObject"]; Text "."])
    (module_index_url "QtCore")
  = Elem "div" [] [Elem "a" [("href", "QObject.html#more")] [Text "QObject"]; Text "."].
Proof.
  apply (clean_links_without_links Sample.cwd
           (Elem "div" [] [Elem "a" [("href", "QObject.html#more")] [Text "QObject"]; Text "."])
           (module_index_url "QtCore")).
  vm_compute. repeat constructor.
Defined.

(** X2. Rewriting the links of a fragment a second time changes
    nothing, whatever the URL given the second time: the first pass
    leaves no link for the second to select. *)
Theorem clean_links_idempotent (cwd : string) (body : node) (url url' : string) :
  clean_links cwd (clean_links cwd body url) url' = clean_links cwd body url.
Proof.
  apply clean_links_fixed.
  destruct body as [s | t a ch]; [constructor|].
  simpl. apply clean_forest_none_selected.
Qed.

(** ** Edits at a path *)

Lemma get_text_elem t a ch : get_text (Elem t a ch) = Py.cat (map get_text ch).
Proof. reflexivity. Qed.

Lemma splice_at_cons i q f l :
  splice_at (i :: q) f l
  = match l !! i with
    | None => l
    | Some c =>
        match q with
        | [] => take i l ++ f c ++ drop (S i) l
        | _ :: _ =>
            match c with
            | Text _ => l
            | Elem t a ch => <[i := Elem t a (splice_at q f ch)]> l
            end
        end
    end.
Proof. reflexivity. Qed.

Lemma cat_cons x l : Py.cat (x :: l) = x +:+ Py.cat l.
Proof. reflexivity. Qed.

(** Replacing a node by nodes with the same text keeps the text. *)
Lemma get_text_splice_at f d : forall p t a l,
  node_at p (Elem t a l) = Some d -> p <> [] ->
  Py.cat (map get_text (f d)) = get_text d ->
  Py.cat (map get_text (splice_at p f l)) = Py.cat (map get_text l).
Proof.
  induction p as [|i q IH]; intros t a l Hat Hne Hf; [contradiction|].
  simpl in Hat. destruct (l !! i) as [c|] eqn:Hi; [|discriminate].
  rewrite splice_at_cons, Hi.
  transitivity (Py.cat (map get_text (take i l ++ c :: drop (S i) l)));
    [|rewrite take_drop_middle by exact Hi; reflexivity].
  destruct q as [|j q'].
  - injection Hat as ->.
    rewrite !map_app, !cat_app, Hf, map_cons, cat_cons. reflexivity.
  - destruct c as [s | t' a' ch']; [discriminate|].
    rewrite insert_take_drop by (eapply lookup_lt_Some; exact Hi).
    rewrite !map_app, !cat_app, !map_cons, !cat_cons.
    rewrite !get_text_elem, (IH t' a' ch' Hat ltac:(discriminate) Hf). reflexivity.
Qed.

Lemma get_text_splice_in f d p body :
  node_at p body = Some d -> p <> [] ->
  Py.cat (map get_text (f d)) = get_text d ->
  get_text (splice_in p f body) = get_text body.
Proof.
  intros Hat Hne Hf. destruct body as [s | t a l]; [reflexivity|].
  simpl. apply (get_text_splice_at f d p t a l Hat Hne Hf).
Qed.

Lemma count_tag_app t l1 l2 : count_tag t (l1 ++ l2) = count_tag t l1 + count_tag t l2.
Proof. unfold count_tag. rewrite flat_map_app, List.filter_app, length_app. reflexivity. Qed.

Lemma count_tag_cons t n l : count_tag t (n :: l) = count_tag t [n] + count_tag t l.
Proof. apply (count_tag_app t [n] l). Qed.

Lemma count_tag_elem t name a ch :
  count_tag t [Elem name a ch] = (if String.eqb name t then 1 else 0) + count_tag t ch.
Proof.
  unfold count_tag. simpl. rewrite app_nil_r.
  destruct (String.eqb name t); reflexivity.
Qed.

(** Replacing a node changes the number of tags by the difference
    between the node and what takes its place. *)
Lemma count_tag_splice_at t f d : forall p name a l,
  node_at p (Elem name a l) = Some d -> p <> [] ->
  count_tag t (splice_at p f l) + count_tag t [d] = count_tag t l + count_tag t (f d).
Proof.
  induction p as [|i q IH]; intros name a l Hat Hne; [contradiction|].
  simpl in Hat. destruct (l !! i) as [c|] eqn:Hi; [|discriminate].
  rewrite splice_at_cons, Hi.
  assert (E : count_tag t l = count_tag t (take i l ++ c :: drop (S i) l))
    by (rewrite take_drop_middle by exact Hi; reflexivity).
  rewrite E. clear E.
  destruct q as [|j q'].
  - injection Hat as ->.
    rewrite !count_tag_app, (count_tag_cons t d (drop (S i) l)). lia.
  - destruct c as [s | t' a' ch']; [discriminate|].
    rewrite insert_take_drop by (eapply lookup_lt_Some; exact Hi).
    rewrite !count_tag_app, (count_tag_cons t (Elem t' a' ch') (drop (S i) l)),
      (count_tag_cons t (Elem t' a' (splice_at (j :: q') f ch')) (drop (S i) l)),
      !count_tag_elem.
    pose proof (IH t' a' ch' Hat ltac:(discriminate)). lia.
Qed.

(** ** The post-pass on the root page *)

Lemma href_matches_anchor rx d :
  href_matches rx d = true -> exists a ch, d = Elem "a" a ch.
Proof.
  unfold href_matches. destruct d as [s | t a ch]; [discriminate|].
  simpl. intros H. apply andb_prop in H as [H _].
  apply String.eqb_eq in H. subst. eauto.
Qed.

Lemma remove_link_effect re page m page' :
  remove_link re page m = Ok page' ->
  get_text page' = get_text page /\
  count_tag "a" (children page') + 1 = count_tag "a" (children page).
Proof.
  unfold remove_link. destruct (re m) as [rx|]; [|discriminate].
  destruct (find (href_matches rx) page) as [[p d]|] eqn:Hfind; [|discriminate].
  intros H. injection H as <-.
  apply find_sound in Hfind as (Hne & Hat & Hrx).
  apply href_matches_anchor in Hrx as (a & ch & ->).
  split.
  - apply (get_text_splice_in children _ p page Hat Hne). reflexivity.
  - destruct page as [s | t a' l]; [destruct p; [contradiction | discriminate]|].
    simpl. pose proof (count_tag_splice_at "a" children _ p t a' l Hat Hne) as E.
    rewrite count_tag_elem in E. simpl in E. lia.
Qed.

(** X3. When the post-pass succeeds, the root page has lost exactly
    one anchor for each module not found, and its text is what it
    was. *)
Theorem remove_links_effect (re_compile : string -> option (string -> bool))
    (page page' : node) (modules_in_404 : list string) :
  remove_links re_compile page modules_in_404 = Ok page' ->
  get_text page' = get_text page /\
  count_tag "a" (children page') + length modules_in_404 = count_tag "a" (children page).
Proof.
  revert page. induction modules_in_404 as [|m r IH]; intros page H.
  - injection H as <-. split; [reflexivity | simpl; lia].
  - simpl in H. destruct (remove_link re_compile page m) as [b|] eqn:E; [|discriminate].
    apply remove_link_effect in E as [E1 E2].
    destruct (IH b H) as [H1 H2]. split; [congruence | simpl; lia].
Qed.

Lemma remove_links_effect_witness :
  get_text Sample.pruned_root = get_text Sample.saved_root /\
  count_tag "a" (children Sample.pruned_root) + 1 = count_tag "a" (children Sample.saved_root).
Proof.
  exact (remove_links_effect Sample.re_literal Sample.saved_root Sample.pruned_root
           ["QtQuick"] eq_refl).
Defined.

(** ** Inheritance links *)

Lemma strip_links_text l l' :
  strip_links l = Ok l' -> map get_text l' = map get_text l.
Proof.
  revert l'. induction l as [|n r IH]; intros l' H.
  - injection H as <-. reflexivity.
  - simpl in H. destruct (strip_link n) as [n'|] eqn:En; [|discriminate].
    destruct (strip_links r) as [r'|] eqn:Er; [|discriminate].
    injection H as <-. simpl. rewrite (IH r' eq_refl). f_equal.
    unfold strip_link in En. destruct (is_tag "a" n).
    + destruct (getitem "href" n); [|discriminate]. injection En as <-.
      destruct n; reflexivity.
    + injection En as <-. reflexivity.
Qed.

(** X4. Cutting the fragment identifiers of the inheritance links
    leaves the text of the page as it was. *)
Theorem strip_inherited_anchors_keeps_text (body body' : node) :
  strip_inherited_anchors body = Ok body' -> get_text body' = get_text body.
Proof.
  unfold strip_inherited_anchors.
  destruct (find is_inherited_strong body) as [[p d]|] eqn:Hfind;
    [|intros H; injection H as <-; reflexivity].
  destruct (find_sound _ _ _ _ Hfind) as (Hne & Hat & _).
  destruct (node_at (removelast p) body) as [[s | t a ch]|] eqn:Hpar;
    try (intros H; injection H as <-; reflexivity).
  destruct (strip_links (drop (S (default 0 (last p))) ch)) as [links|] eqn:El;
    [|discriminate].
  intros H. injection H as <-.
  assert (Hpt : get_text (Elem t a (take (S (default 0 (last p))) ch ++ links))
                = get_text (Elem t a ch)).
  { rewrite !get_text_elem, map_app, (strip_links_text _ _ El), <- map_app, take_drop.
    reflexivity. }
  destruct (removelast p) as [|k pp] eqn:Epp.
  - simpl in Hpar. injection Hpar as ->. exact Hpt.
  - apply (get_text_splice_in _ _ _ _ Hpar); [discriminate|].
    simpl map. rewrite cat_cons. unfold Py.cat at 1. simpl foldr.
    rewrite app_empty_r. exact Hpt.
Qed.

Lemma strip_inherited_anchors_keeps_text_witness :
  get_text Sample.stripped_class_body = get_text Sample.class_body.
Proof.
  exact (strip_inherited_anchors_keeps_text Sample.class_body Sample.stripped_class_body eq_refl).
Defined.

(** ** The index store: ids and content *)

Lemma foldr_max_seq a n :
  foldr Nat.max 0 (seq a n) = match n with 0 => 0 | S k => a + k end.
Proof.
  revert a. induction n as [|n IH]; intros a; [reflexivity|].
  simpl. rewrite IH. destruct n; lia.
Qed.

Lemma next_id_in_order t : ids_in_order t -> next_id t = S (length t).
Proof.
  unfold ids_in_order, next_id. intros H. f_equal.
  assert (E : foldr (fun r m => Nat.max (row_id r) m) 0 t = foldr Nat.max 0 (map row_id t)).
  { clear H. induction t as [|r t IH]; simpl; [reflexivity | rewrite IH; reflexivity]. }
  rewrite E, H, foldr_max_seq. destruct (length t); reflexivity.
Qed.

Lemma insert_row_ids name ty pth t :
  ids_in_order t -> ids_in_order (insert_row name ty pth t).
Proof.
  intros H. unfold insert_row. destruct (existsb _ t); [exact H|].
  unfold ids_in_order in *. rewrite map_app, length_app, H, (next_id_in_order t H).
  simpl. rewrite Nat.add_1_r, seq_S. reflexivity.
Qed.

Lemma table_ok_print s : preserves table_ok (print s).
Proof. intros w H. exact H. Qed.

Lemma table_ok_write f c : preserves table_ok (write_file f c).
Proof. intros w H. exact H. Qed.

Lemma table_ok_insert n ty p : preserves table_ok (insert_entry n ty p).
Proof.
  intros w (t & Hdb & U & Hids). unfold insert_entry. rewrite Hdb. simpl.
  exists (insert_row n ty p t). split; [reflexivity|].
  split; [apply insert_row_unique, U | apply insert_row_ids, Hids].
Qed.

Lemma table_ok_init w : table_ok (init_database w).2.
Proof.
  exists []. split; [reflexivity|]. split; [|reflexivity].
  intros n ty p. unfold count_rows. simpl. lia.
Qed.

(** X5. After any sequence of insertions into the table created by
    [init_database], no two rows hold the same entry and the ids of
    the rows are 1, 2, ... in the order of insertion: an ignored
    insertion uses no id. *)
Theorem index_ids_in_order (w : world) (es : list (string * string * string)) :
  table_ok (insert_all es (init_database w).2).2.
Proof.
  exact (preserves_for_each table_ok es _
           (fun e => table_ok_insert e.1.1 e.1.2 e.2) _ (table_ok_init w)).
Qed.

Lemma count_rows_insert_other n ty p n' ty' p' t :
  (n, ty, p) <> (n', ty', p') ->
  count_rows n ty p (insert_row n' ty' p' t) = count_rows n ty p t.
Proof.
  intros Hne. unfold insert_row. destruct (existsb _ t); [reflexivity|].
  rewrite count_rows_app. unfold count_rows at 2. simpl.
  destruct (same_entry n ty p (Row (next_id t) n' ty' p')) eqn:E; [|simpl; lia].
  apply same_entry_eq in E as (E1 & E2 & E3). simpl in *. congruence.
Qed.

Lemma insert_all_counts es : forall w t0,
  db w = Some t0 -> unique_rows t0 ->
  exists t, db (insert_all es w).2 = Some t /\
    forall n ty p,
      count_rows n ty p t = if decide ((n, ty, p) ∈ es) then 1 else count_rows n ty p t0.
Proof.
  unfold insert_all. induction es as [|e es IH]; intros w t0 Hdb U.
  - exists t0. split; [exact Hdb|]. intros n ty p.
    destruct (decide _) as [H|H]; [inversion H | reflexivity].
  - simpl. unfold bind. rewrite (insert_entry_some _ _ _ _ _ Hdb).
    destruct (IH (World (fs w) (Some (insert_row e.1.1 e.1.2 e.2 t0)) (log w))
                (insert_row e.1.1 e.1.2 e.2 t0) eq_refl (insert_row_unique _ _ _ _ U))
      as (t & Ht & Hc).
    exists t. split; [exact Ht|]. intros n ty p. rewrite Hc.
    destruct e as [[n' ty'] p']. simpl.
    destruct (decide ((n, ty, p) ∈ es)) as [Hin|Hin].
    + rewrite decide_True by (right; exact Hin). reflexivity.
    + destruct (decide ((n, ty, p) = (n', ty', p'))) as [Heq|Hne].
      * injection Heq as -> -> ->. rewrite decide_True by left.
        apply insert_row_count, U.
      * rewrite decide_False by (intros H; inversion H; subst; contradiction).
        apply count_rows_insert_other, Hne.
Qed.

(** X6. After a sequence of insertions into the table created by
    [init_database], the table holds exactly the entries of the
    sequence, each in one row. *)
Theorem index_holds_inserted_entries (w : world) (es : list (string * string * string)) :
  exists t, db (insert_all es (init_database w).2).2 = Some t /\
    forall n ty p,
      count_rows n ty p t = if decide ((n, ty, p) ∈ es) then 1 else 0.
Proof.
  destruct (insert_all_counts es (init_database w).2 [] eq_refl) as (t & Ht & Hc).
  { intros n ty p. unfold count_rows. simpl. lia. }
  exists t. split; [exact Ht|]. intros n ty p. rewrite Hc. reflexivity.
Qed.

(** ** What every run keeps *)

Lemma preserves_download_css I net :
  (forall f c, preserves I (write_file f c)) -> preserves I (download_css net).
Proof.
  intros HW. unfold download_css.
  apply preserves_bind; [apply preserves_download_file, HW | intros _].
  apply preserves_bind; [apply preserves_read_file | intros css; apply HW].
Qed.

Lemma preserves_after_init I cwd net soup to_str re_compile :
  (forall s, preserves I (print s)) ->
  (forall f c, preserves I (write_file f c)) ->
  (forall n t p, preserves I (insert_entry n t p)) ->
  forall w, I (init_database w).2 -> I (main cwd net soup to_str re_compile w).2.
Proof.
  intros HP HW HI w Hw. rewrite main_unfold.
  apply (preserves_bind I (download_css net)
           (fun _ => crawl cwd net soup to_str re_compile)); [| |exact Hw].
  - apply preserves_download_css, HW.
  - intros _. apply preserves_crawl; assumption.
Qed.

(** X7. However a run ends, with the banner or with an exception, it
    leaves the table in place, with no entry in two rows and the ids
    1, 2, ... in the order of insertion. *)
Theorem main_leaves_table_ok (cwd : string) (net : string -> result string)
    (soup : string -> node) (to_str : node -> string)
    (re_compile : string -> option (string -> bool)) (w : world) :
  table_ok (main cwd net soup to_str re_compile w).2.
Proof.
  apply preserves_after_init.
  - apply table_ok_print.
  - apply table_ok_write.
  - apply table_ok_insert.
  - apply table_ok_init.
Qed.



(** ** The style sheet *)

Lemma concat_empty_cat l : String.concat "" l = Py.cat l.
Proof.
  induction l as [|x l IH]; [reflexivity|].
  destruct l as [|y l].
  - simpl. rewrite app_empty_r. reflexivity.
  - change (String.concat "" (x :: y :: l)) with (x +:+ "" +:+ String.concat "" (y :: l)).
    rewrite IH. reflexivity.
Qed.

Lemma css_of_lines_cons l ls last_line :
  css_of_lines (l :: ls) last_line = l +:+ String Py.nl (css_of_lines ls last_line).
Proof.
  unfold css_of_lines. simpl map. rewrite cat_cons, !app_assoc_str. reflexivity.
Qed.

Lemma split_on_lines ls last_line :
  Forall (fun l => Py.has_char Py.nl l = false) ls ->
  Py.has_char Py.nl last_line = false ->
  Py.split_on Py.nl (css_of_lines ls last_line) = ls ++ [last_line].
Proof.
  intros F Hl. induction F as [|l ls Hh _ IH].
  - apply split_on_no_sep, Hl.
  - rewrite css_of_lines_cons, split_on_app_sep, IH, (split_on_no_sep _ _ Hh). reflexivity.
Qed.





(** ** Pages that are not found *)

(** X11. Only the index page of a module may be missing: when the
    page of a class, or the root page, is answered by an HTTP error,
    the script raises [AttributeError] and has changed nothing. *)
Theorem missing_page_aborts (cwd : string) (net : string -> result string)
    (soup : string -> node) (to_str : node -> string) (module : string)
    (class_name : option string) (w : world) :
  (net (class_page_url module (Py.fmt class_name)) = Raise HTTPError ->
   parse_class_page cwd net soup to_str module class_name w = (Raise AttributeError, w)) /\
  (net SITE = Raise HTTPError ->
   parse_main_page net soup to_str w = (Raise AttributeError, w)).
Proof.
  split; intros Hnet.
  - unfold parse_class_page, do_request, bind, lift. cbv zeta. rewrite Hnet. reflexivity.
  - unfold parse_main_page, do_request, bind, lift. rewrite Hnet. reflexivity.
Qed.

Lemma missing_page_aborts_witness :
  parse_class_page Sample.cwd Sample.net_404 Sample.soup Sample.show "QtCore" (Some "QObject")
    Sample.empty_world
  = (Raise AttributeError, Sample.empty_world).
Proof.
  apply (proj1 (missing_page_aborts Sample.cwd Sample.net_404 Sample.soup Sample.show
                  "QtCore" (Some "QObject") Sample.empty_world)).
  reflexivity.
Defined.

(** X12. The round of the loop of [main] for a module whose index page
    is answered by an HTTP error writes no file and inserts no row: it
    prints two lines and adds the module to the list of those not
    found. *)
Theorem module_not_found_is_skipped (cwd : string) (net : string -> result string)
    (soup : string -> node) (to_str : node -> string) (modules_in_404 : list string)
    (module : node) (slug : string) (w : world) :
  module_slug module = Some slug ->
  net (module_index_url slug) = Raise HTTPError ->
  exists w',
    crawl_module cwd net soup to_str modules_in_404 module w
    = (Ok (modules_in_404 ++ [slug]), w') /\
    fs w' = fs w /\ db w' = db w /\
    log w' = log w ++ [Printed ("Indexing " +:+ slug +:+ eol);
                       Printed (red "  -- Page not found. Skip..." +:+ eol)].
Proof.
  unfold module_slug. destruct (tag_string module) as [s|] eqn:Hs; [|discriminate].
  intros H Hnet. injection H as <-.
  eexists. split; [apply (crawl_module_not_found _ _ _ _ _ _ s w Hs Hnet)|].
  repeat split.
Qed.

Lemma module_not_found_is_skipped_witness :
  exists w',
    crawl_module Sample.cwd Sample.net_404 Sample.soup Sample.show ["QtHelp"]
      (Elem "a" [("class", "reference external")] [Text "Qt Quick"]) Sample.empty_world
    = (Ok (["QtHelp"] ++ ["QtQuick"]), w') /\
    fs w' = fs Sample.empty_world /\ db w' = db Sample.empty_world /\
    log w' = log Sample.empty_world
             ++ [Printed ("Indexing " +:+ "QtQuick" +:+ eol);
                 Printed (red "  -- Page not found. Skip..." +:+ eol)].
Proof.
  exact (module_not_found_is_skipped Sample.cwd Sample.net_404 Sample.soup Sample.show
           ["QtHelp"] (Elem "a" [("class", "reference external")] [Text "Qt Quick"])
           "QtQuick" Sample.empty_world eq_refl eq_refl).
Defined.

(** ** What a processed page leaves *)

Lemma insert_entry_run name ty pth w r w' :
  insert_entry name ty pth w = (Ok r, w') ->
  holds_entry name ty pth w' /\ fs w' = fs w /\ log w' = log w.
Proof.
  intros H. split; [destruct r; apply (insert_entry_ok _ _ _ _ _ H)|].
  unfold insert_entry in H. destruct (db w); [|discriminate].
  injection H as _ <-. split; reflexivity.
Qed.

Ltac bind_as H a w Hm := apply bind_ok in H as (a & w & Hm & H).

(** X13. When the index page of a module has been processed, its page
    file holds the template around the returned body, the table holds
    the Module entry that points to the file, and the returned body
    holds no link that the rewriter selects. *)
Theorem module_index_page_saved (cwd : string) (net : string -> result string)
    (soup : string -> node) (to_str : node -> string) (module : string) (body : node)
    (w w' : world) :
  parse_module_index_page cwd net soup to_str module w = (Ok (Some body), w') ->
  holds_entry module "Module" (module +:+ "-index.html") w' /\
  (exists title,
     fs w' !! (module +:+ "-index.html") = Some (HTML_TEMPLATE title (to_str body))) /\
  Forall (fun d => selected d = false) (flat_map subnodes (children body)).
Proof.
  intros H. unfold parse_module_index_page in H. cbv zeta in H.
  bind_as H u0 w0 H0. bind_as H doc w1 H1.
  destruct doc as [document|]; [|discriminate H].
  bind_as H b w2 H2. bind_as H h w3 H3. bind_as H title w4 H4.
  bind_as H u5 w5 H5. rewrite save_page_run in H5. injection H5 as _ <-.
  bind_as H u6 w6 H6. apply insert_entry_run in H6 as (He & Hfs & _).
  injection H as <- <-.
  split; [exact He|]. split.
  - exists title. rewrite Hfs. simpl. apply lookup_insert_eq.
  - destruct (extract h.1 b.2) as [s | t a ch]; [constructor|].
    simpl. apply clean_forest_none_selected.
Qed.

Lemma module_index_page_saved_witness :
  holds_entry "QtCore" "Module" "QtCore-index.html"
    (parse_module_index_page Sample.cwd Sample.net Sample.index_soup Sample.show "QtCore"
       (World ∅ (Some []) [])).2.
Proof.
  apply (module_index_page_saved Sample.cwd Sample.net Sample.index_soup Sample.show "QtCore"
           (clean_links Sample.cwd (extract [0] Sample.index_body) (module_index_url "QtCore"))
           (World ∅ (Some []) [])).
  vm_compute. reflexivity.
Defined.

Lemma index_methods_run module class_name file_path methods : forall w w',
  for_each methods (index_method module class_name file_path) w = (Ok tt, w') ->
  fs w' = fs w /\
  forall method, method ∈ methods ->
    exists href, getitem "href" method.2 = Ok href /\
      holds_entry ("PySide2." +:+ module +:+ "." +:+ class_name +:+ "."
                   +:+ Py.fmt (tag_string method.2))
        "Method" (file_path +:+ href) w'.
Proof.
  induction methods as [|m r IH]; intros w w' H.
  - injection H as <-. split; [reflexivity|]. intros method Hin. inversion Hin.
  - simpl in H. bind_as H u0 w0 H0. unfold index_method in H0. bind_as H0 href w1 H1.
    apply lift_ok in H1 as [Hhref ->].
    apply insert_entry_run in H0 as (He & Hfs & _).
    destruct (IH _ _ H) as [Hfs' Hall].
    split; [congruence|]. intros method Hin.
    apply elem_of_cons in Hin as [->|Hin]; [|apply Hall, Hin].
    exists href. split; [exact Hhref|].
    refine (preserves_run _ _ _ _ _ _ H He).
    apply preserves_for_each. intros x. apply preserves_index_method.
    intros; apply holds_entry_insert.
Qed.

(** X14. When a class page has been processed, its page file holds the
    template around the rewritten body, and every method link of the
    synopsis of that body has a Method entry whose path is the page
    file followed by the [href] of the link. *)
Theorem class_page_saved_and_methods_indexed (cwd : string) (net : string -> result string)
    (soup : string -> node) (to_str : node -> string) (module name : string)
    (w w' : world) :
  parse_class_page cwd net soup to_str module (Some name) w = (Ok tt, w') ->
  exists title body,
    fs w' !! (name +:+ ".html") = Some (HTML_TEMPLATE title (to_str body)) /\
    forall p synopsis method,
      find (has_id "synopsis") body = Some (p, synopsis) ->
      method ∈ find_all (tag_class "a" "reference internal") synopsis ->
      exists href, getitem "href" method.2 = Ok href /\
        holds_entry ("PySide2." +:+ module +:+ "." +:+ name +:+ "."
                     +:+ Py.fmt (tag_string method.2))
          "Method" ((name +:+ ".html") +:+ href) w'.
Proof.
  intros H. unfold parse_class_page in H. cbv zeta in H.
  change (Py.fmt (Some name)) with name in H.
  bind_as H d0 w0 H0. bind_as H d1 w1 H1. bind_as H b w2 H2. bind_as H body w3 H3.
  bind_as H outcomes w4 H4. bind_as H title w5 H5.
  bind_as H u6 w6 H6. rewrite save_page_run in H6. injection H6 as _ <-.
  bind_as H cn w7 H7. apply lift_ok in H7 as [H7 ->]. injection H7 as <-.
  bind_as H u8 w8 H8. apply insert_entry_run in H8 as (_ & Hfs & _).
  exists title,
    (foldr apply_image (clean_links cwd body (class_page_url module name)) outcomes).
  simpl in Hfs.
  destruct (find (has_id "synopsis")
              (foldr apply_image (clean_links cwd body (class_page_url module name)) outcomes))
    as [[p0 syn]|] eqn:Hsyn.
  - apply index_methods_run in H as [Hfs' Hall]. split.
    + rewrite Hfs', Hfs. apply lookup_insert_eq.
    + intros p synopsis method Hf Hin. injection Hf as <- <-.
      apply Hall, Hin.
  - injection H as <-. split.
    + rewrite Hfs. apply lookup_insert_eq.
    + intros p synopsis method Hf. discriminate Hf.
Qed.

Lemma class_page_saved_and_methods_indexed_witness :
  exists title body,
    fs (parse_class_page Sample.cwd Sample.net Sample.soup Sample.show "QtCore" (Some "QObject")
          (World ∅ (Some []) [])).2 !! ("QObject" +:+ ".html")
    = Some (HTML_TEMPLATE title (Sample.show body)) /\
    forall p synopsis method,
      find (has_id "synopsis") body = Some (p, synopsis) ->
      method ∈ find_all (tag_class "a" "reference internal") synopsis ->
      exists href, getitem "href" method.2 = Ok href /\
        holds_entry ("PySide2." +:+ "QtCore" +:+ "." +:+ "QObject" +:+ "."
                     +:+ Py.fmt (tag_string method.2))
          "Method" (("QObject" +:+ ".html") +:+ href)
          (parse_class_page Sample.cwd Sample.net Sample.soup Sample.show "QtCore"
             (Some "QObject") (World ∅ (Some []) [])).2.
Proof.
  apply (class_page_saved_and_methods_indexed Sample.cwd Sample.net Sample.soup Sample.show
           "QtCore" "QObject" (World ∅ (Some []) [])).
  vm_compute. reflexivity.
Defined.

(** ** The modules recorded as not found *)

Lemma do_request_none net soup url :
  do_request net soup url = Ok None <-> net url = Raise HTTPError.
Proof.
  unfold do_request. destruct (net url) as [html|e].
  - split; discriminate.
  - destruct e; split; intros H; try discriminate H; reflexivity.
Qed.

Lemma parse_module_index_page_answer cwd net soup to_str module w r w' :
  parse_module_index_page cwd net soup to_str module w = (Ok r, w') ->
  (r = None <-> net (module_index_url module) = Raise HTTPError).
Proof.
  intros H. unfold parse_module_index_page in H. cbv zeta in H.
  bind_as H u0 w0 H0. bind_as H doc w1 H1.
  apply lift_ok in H1 as [H1 _].
  destruct doc as [document|].
  - bind_as H b w2 H2. bind_as H h w3 H3. bind_as H title w4 H4.
    bind_as H u5 w5 H5. bind_as H u6 w6 H6. injection H as <- _.
    split; [discriminate|].
    intros Hnet. apply (do_request_none net soup) in Hnet. rewrite Hnet in H1. discriminate H1.
  - injection H as <- _. split; [|reflexivity].
    intros _. apply (do_request_none net soup), H1.
Qed.

Lemma crawl_module_records cwd net soup to_str acc module w acc' w' :
  crawl_module cwd net soup to_str acc module w = (Ok acc', w') ->
  acc' = acc ++ not_found_modules net [module].
Proof.
  intros H. unfold crawl_module in H. cbv zeta in H.
  bind_as H s w0 H0. apply lift_ok in H0 as [H0 _].
  unfold not_found_modules, module_slug. simpl.
  destruct (tag_string module) as [s'|]; [|discriminate H0]. injection H0 as ->.
  bind_as H r w1 H1. apply parse_module_index_page_answer in H1.
  rewrite app_nil_r. destruct r as [body|].
  - bind_as H toc w2 H2. bind_as H u3 w3 H3. bind_as H u4 w4 H4. injection H as <- _.
    destruct (net (module_index_url (Py.replace " " "" s))) as [html|e];
      [symmetry; apply app_nil_r|].
    destruct e; try (symmetry; apply app_nil_r).
    destruct H1 as [_ H1]. discriminate (H1 eq_refl).
  - bind_as H u2 w2 H2. injection H as <- _.
    rewrite (proj1 H1 eq_refl). reflexivity.
Qed.

Lemma fold_crawl_module_records cwd net soup to_str modules :
  forall acc missing w w',
  fold_m (crawl_module cwd net soup to_str) acc modules w = (Ok missing, w') ->
  missing = acc ++ not_found_modules net modules.
Proof.
  induction modules as [|m r IH]; intros acc missing w w' H.
  - injection H as <- _. symmetry. apply app_nil_r.
  - simpl in H. bind_as H acc1 w1 H1.
    apply crawl_module_records in H1. apply IH in H. subst.
    rewrite <- app_assoc. f_equal.
    unfold not_found_modules. simpl. rewrite app_nil_r. reflexivity.
Qed.

(** X15. When the loop over the modules ends, the list it has kept is
    the modules whose index page was answered by an HTTP error, in the
    order of the root page. *)
Theorem modules_in_404_are_the_missing (cwd : string) (net : string -> result string)
    (soup : string -> node) (to_str : node -> string) (modules : list node)
    (acc missing : list string) (w w' : world) :
  fold_m (crawl_module cwd net soup to_str) acc modules w = (Ok missing, w') ->
  missing = acc ++ not_found_modules net modules.
Proof. apply fold_crawl_module_records. Qed.

Lemma modules_in_404_are_the_missing_witness :
  ["QtQuick"; "QtHelp"]
  = [] ++ not_found_modules Sample.net_404
            [Elem "a" [("class", "reference external")] [Text "Qt Quick"];
             Elem "a" [("class", "reference external")] [Text "QtHelp"]].
Proof.
  apply (modules_in_404_are_the_missing Sample.cwd Sample.net_404 Sample.soup Sample.show
           [Elem "a" [("class", "reference external")] [Text "Qt Quick"];
            Elem "a" [("class", "reference external")] [Text "QtHelp"]]
           [] ["QtQuick"; "QtHelp"] Sample.empty_world
           (fold_m (crawl_module Sample.cwd Sample.net_404 Sample.soup Sample.show) []
              [Elem "a" [("class", "reference external")] [Text "Qt Quick"];
               Elem "a" [("class", "reference external")] [Text "QtHelp"]]
              Sample.empty_world).2).
  vm_compute. reflexivity.
Defined.

(** ** The end of a run *)

Lemma for_each_print l w :
  for_each l print w = (Ok tt, World (fs w) (db w) (log w ++ map Printed l)).
Proof.
  revert w. induction l as [|s l IH]; intros w.
  - simpl. unfold ret. rewrite app_nil_r. destruct w; reflexivity.
  - simpl. unfold bind, print at 1. rewrite IH. simpl. rewrite <- app_assoc. reflexivity.
Qed.

Lemma read_file_ok file w c w' :
  read_file file w = (Ok c, w') -> fs w !! file = Some c /\ w' = w.
Proof.
  unfold read_file. destruct (fs w !! file) as [x|]; [|discriminate].
  intros H. injection H as <- <-. split; reflexivity.
Qed.



(** ** A link without a name *)

Lemma bind_stops {A B} (d : option (list row)) (m : M A) (k : A -> M B) w :
  db w = d ->
  preserves (fun v => db v = d) m ->
  (forall a v, db v = d -> (exists e, (k a v).1 = Raise e) /\ db (k a v).2 = d) ->
  (exists e, (bind m k w).1 = Raise e) /\ db (bind m k w).2 = d.
Proof.
  intros Hw Hm Hk. unfold bind. specialize (Hm w Hw).
  destruct (m w) as [[a|e] v]; simpl in Hm.
  - apply Hk, Hm.
  - split; [eauto | exact Hm].
Qed.

(** X17. A class link whose [string] is [None] (a link that is not
    around a single piece of text) stops the run with an exception:
    the page may be fetched and saved as [None.html], but no row is
    inserted for it. *)
Theorem class_without_name_is_not_indexed (cwd : string) (net : string -> result string)
    (soup : string -> node) (to_str : node -> string) (module : string) (w : world) :
  (exists e, (parse_class_page cwd net soup to_str module None w).1 = Raise e) /\
  db (parse_class_page cwd net soup to_str module None w).2 = db w.
Proof.
  unfold parse_class_page. cbv zeta.
  do 4 (apply bind_stops; [assumption || reflexivity | apply preserves_lift | intros ? ? ?]).
  apply bind_stops; [assumption| |intros ? ? ?].
  { apply preserves_map_m. intros x. apply preserves_download_image.
    intros f c u Hu. exact Hu. }
  apply bind_stops; [assumption | apply preserves_lift | intros ? ? ?].
  apply bind_stops; [assumption| |intros ? ? ?].
  { apply preserves_save_page; intros; intros u Hu; exact Hu. }
  split; [exists AttributeError; reflexivity | assumption].
Qed.

(** ** An anchor without target among the inheritance links *)

Lemma strip_link_raises n e : strip_link n = Raise e -> e = KeyError.
Proof.
  unfold strip_link, getitem. destruct (is_tag "a" n); [|discriminate].
  destruct (get_attr "href" (attrs_of n)); [discriminate|].
  intros H. injection H as <-. reflexivity.
Qed.

Lemma strip_links_missing_href l : forall k link,
  l !! k = Some link -> is_tag "a" link = true -> get_attr "href" (attrs_of link) = None ->
  strip_links l = Raise KeyError.
Proof.
  induction l as [|n r IH]; intros k link Hk Ha Hh; [discriminate|].
  simpl. destruct (strip_link n) as [n'|e] eqn:En.
  - destruct k as [|k]; simpl in Hk.
    + injection Hk as ->. unfold strip_link, getitem in En. rewrite Ha, Hh in En.
      discriminate En.
    + rewrite (IH k link Hk Ha Hh). reflexivity.
  - apply strip_link_raises in En. subst. reflexivity.
Qed.

(** X18. When an anchor without [href] (a named anchor) stands among
    the siblings that follow the [Inherited by:] heading, the page is
    not processed: [KeyError] is raised. *)
Theorem inherited_anchor_without_href (body : node) (pp : path) (i j : nat)
    (strong link : node) (t : string) (a : list (string * string)) (ch : list node) :
  find is_inherited_strong body = Some (pp ++ [i], strong) ->
  node_at pp body = Some (Elem t a ch) ->
  i < j -> ch !! j = Some link ->
  is_tag "a" link = true -> get_attr "href" (attrs_of link) = None ->
  strip_inherited_anchors body = Raise KeyError.
Proof.
  intros Hfind Hpar Hij Hj Ha Hh. unfold strip_inherited_anchors.
  rewrite Hfind, removelast_last, last_snoc, Hpar. simpl.
  rewrite (strip_links_missing_href (drop (S i) ch) (j - S i) link); [reflexivity| |exact Ha|exact Hh].
  rewrite lookup_drop. replace (S i + (j - S i)) with j by lia. exact Hj.
Qed.

Lemma inherited_anchor_without_href_witness :
  strip_inherited_anchors
    (Elem "div" []
       [Elem "p" []
          [Elem "strong" [] [Text "Inherited by:"];
           Elem "a" [("href", "QWidget.html#more")] [Text "QWidget"];
           Elem "a" [("name", "details")] []]])
  = Raise KeyError.
Proof.
  apply (inherited_anchor_without_href _ [0] 0 2
           (Elem "strong" [] [Text "Inherited by:"])
           (Elem "a" [("name", "details")] []) "p" []
           [Elem "strong" [] [Text "Inherited by:"];
            Elem "a" [("href", "QWidget.html#more")] [Text "QWidget"];
            Elem "a" [("name", "details")] []]);
    try reflexivity.
  lia.
Defined.
